(** * The VFS broker of HelenOS: namespace and descriptor operations

    A shallow embedding of [uspace/srv/vfs/vfs_ops.c].  Every client
    operation of that file is a function on an explicit broker state; the
    backends are reached through an interface ([Backend]) so that the
    results about the broker hold for every backend.  The helpers of the
    broker that live in other files of the server (node cache, descriptor
    table, path resolver) are modelled next to the code that calls them. *)

From stdpp Require Import gmap strings list fin_maps.
From Stdlib Require Import ZArith Lia Ascii String.

Local Open Scope string_scope.
Local Open Scope Z_scope.

(** ** Status codes *)

(** The values an [int rc] takes in this file. *)
Inductive errno :=
  | EOK | ENOENT | EBUSY | ENOMEM | EINVAL | EPERM | EBADF | EEXIST
  | ENOTSUP | EIO | EOVERFLOW.

#[global] Instance errno_eq_dec : EqDecision errno.
Proof. solve_decision. Defined.

Definition is_EOK (rc : errno) : bool := bool_decide (rc = EOK).

(** ** Constants of the headers *)

(** Modelled from the spec: the [WALK_*] bits of <ipc/vfs.h>, a header that
    is not among the sources; the walk flags are distinct single bits and
    [WALK_ALL_FLAGS] is their union. *)
Definition WALK_MAY_CREATE : Z := 1.
Definition WALK_MUST_CREATE : Z := 2.
Definition WALK_REGULAR : Z := 4.
Definition WALK_DIRECTORY : Z := 8.
Definition WALK_ALL_FLAGS : Z :=
  Z.lor (Z.lor WALK_MAY_CREATE WALK_MUST_CREATE) (Z.lor WALK_REGULAR WALK_DIRECTORY).

(** Modelled from the spec: the open-mode bits of <ipc/vfs.h>. *)
Definition MODE_READ : Z := 1.
Definition MODE_WRITE : Z := 2.
Definition MODE_APPEND : Z := 4.

(** Modelled from the spec: the lookup flags of "vfs.h" (section 4.4 of the
    specification lists them); distinct single bits. *)
Definition L_FILE : Z := 1.
Definition L_DIRECTORY : Z := 2.
Definition L_MP : Z := 8.
Definition L_EXCLUSIVE : Z := 16.
Definition L_CREATE : Z := 32.
Definition L_UNLINK : Z := 128.
Definition L_DISABLE_MOUNTS : Z := 512.

(** <stdio.h> *)
Definition SEEK_SET : Z := 0.
Definition SEEK_CUR : Z := 1.
Definition SEEK_END : Z := 2.

(** <stdint.h>: [off64_t] is a signed, [aoff64_t] an unsigned 64-bit integer. *)
Definition OFF64_MAX : Z := 2 ^ 63 - 1.
Definition OFF64_MIN : Z := - 2 ^ 63.
Definition UINT64_MOD : Z := 2 ^ 64.

(** <ipc/common.h> *)
Definition IPC_FLAG_BLOCKING : Z := 1.

(** Modelled from the spec: the size of the per-client descriptor table. *)
Definition MAX_OPEN_FILES : nat := 128.

(** ** Integer conversions and the macros of <macros.h> *)

(** [(aoff64_t) x]: conversion to unsigned 64 bits. *)
Definition to_aoff64 (x : Z) : Z := x mod UINT64_MOD.

(** [(off64_t) x]: conversion to signed 64 bits. *)
Definition to_off64 (x : Z) : Z :=
  let u := x mod UINT64_MOD in
  if u <? 2 ^ 63 then u else u - UINT64_MOD.

Definition LOWER32 (arg : Z) : Z := Z.land (to_aoff64 arg) 4294967295.
Definition UPPER32 (arg : Z) : Z := Z.land (Z.shiftr (to_aoff64 arg) 32) 4294967295.
Definition MERGE_LOUP32 (lo up : Z) : Z :=
  Z.lor (Z.land (to_aoff64 lo) 4294967295)
        (to_aoff64 (Z.shiftl (Z.land (to_aoff64 up) 4294967295) 32)).

(** A C truth value: [x] used as a condition. *)
Definition cbool (x : Z) : bool := negb (x =? 0).

(** ** Walk flags (vfs_ops.c, [walk_flags_valid] and [walk_lookup_flags]) *)

Definition walk_flags_valid (flags : Z) : bool :=
  if cbool (Z.land flags (Z.lnot WALK_ALL_FLAGS)) then false
  else if cbool (Z.land flags WALK_MAY_CREATE) && cbool (Z.land flags WALK_MUST_CREATE)
  then false
  else if cbool (Z.land flags WALK_REGULAR) && cbool (Z.land flags WALK_DIRECTORY)
  then false
  else if cbool (Z.land flags WALK_MAY_CREATE) || cbool (Z.land flags WALK_MUST_CREATE)
  then
    if negb (cbool (Z.land flags WALK_DIRECTORY)) && negb (cbool (Z.land flags WALK_REGULAR))
    then false
    else true
  else true.

Definition walk_lookup_flags (flags : Z) : Z :=
  let lflags := 0 in
  let lflags :=
    if cbool (Z.land flags WALK_MAY_CREATE) || cbool (Z.land flags WALK_MUST_CREATE)
    then Z.lor lflags L_CREATE else lflags in
  let lflags :=
    if cbool (Z.land flags WALK_MUST_CREATE) then Z.lor lflags L_EXCLUSIVE else lflags in
  let lflags :=
    if cbool (Z.land flags WALK_REGULAR) then Z.lor lflags L_FILE else lflags in
  let lflags :=
    if cbool (Z.land flags WALK_DIRECTORY) then Z.lor lflags L_DIRECTORY else lflags in
  lflags.

(** ** C strings *)

(** A path is a NUL-terminated string; [strget s i] is [s[i]] for
    [i <= length s], the terminator included. *)
Definition NUL : ascii := "000"%char.
Definition SLASH : ascii := "/"%char.

Definition strget (s : string) (i : nat) : ascii :=
  match String.get i s with
  | Some c => c
  | None => NUL
  end.

(** [s + n]: the string that starts [n] characters into [s]. *)
Fixpoint str_from (n : nat) (s : string) : string :=
  match n, s with
  | O, _ => s
  | S n', String _ s' => str_from n' s'
  | S _, EmptyString => EmptyString
  end.

(** [s[n] = 0]: the string cut after [n] characters. *)
Fixpoint str_cut (n : nat) (s : string) : string :=
  match n, s with
  | O, _ => EmptyString
  | S n', String c s' => String c (str_cut n' s')
  | S _, EmptyString => EmptyString
  end.

(** ** [shared_path] (vfs_ops.c) *)

(** The first loop: the index of the first position where the strings differ
    or [a] ends. *)
Fixpoint shared_scan (a b : string) : nat :=
  match a, b with
  | String x a', String y b' =>
      if bool_decide (x = y) && negb (bool_decide (x = NUL))
      then S (shared_scan a' b') else O
  | _, _ => O
  end.

(** The second loop: walk back to a slash.  The index is a [size_t]; below
    zero it wraps to an address outside the string, where the read is
    undefined ([None]). *)
Fixpoint shared_back (a : string) (res : nat) : option nat :=
  if bool_decide (strget a res = SLASH) then Some res
  else match res with
       | O => None
       | S r => shared_back a r
       end.

Definition shared_path (a b : string) : option nat :=
  let res := shared_scan a b in
  if bool_decide (strget a res = strget b res) then Some res
  else match res with
       | O => None
       | S r => shared_back a r
       end.

(** ** Data model *)

(** [vfs_triplet_t]: the identity of a node at its backend. *)
Record vfs_triplet := Triplet {
  fs_handle : Z;
  service_id : Z;
  index : Z
}.

#[global] Instance vfs_triplet_eq_dec : EqDecision vfs_triplet.
Proof. solve_decision. Defined.

#[global] Instance vfs_triplet_countable : Countable vfs_triplet.
Proof.
  refine (inj_countable' (fun t => (fs_handle t, service_id t, index t))
            (fun p => Triplet p.1.1 p.1.2 p.2) _).
  intros []; reflexivity.
Defined.

Inductive vfs_node_type := VFS_NODE_UNKNOWN | VFS_NODE_FILE | VFS_NODE_DIRECTORY.

#[global] Instance vfs_node_type_eq_dec : EqDecision vfs_node_type.
Proof. solve_decision. Defined.

(** [vfs_lookup_res_t] *)
Record vfs_lookup_res := LookupRes {
  lr_triplet : vfs_triplet;
  lr_size : Z;
  lr_type : vfs_node_type
}.

(** [vfs_node_t]; the contents lock is not part of the sequential model. *)
Record vfs_node := Node {
  n_triplet : vfs_triplet;
  n_type : vfs_node_type;
  n_size : Z;
  n_refcnt : nat
}.

(** [vfs_file_t]; [f_node] is the address of a node, [f_slots] the number of
    descriptor slots that hold this open file (more than one after a dup). *)
Record vfs_file := File {
  f_node : nat;
  f_pos : Z;
  f_open_read : bool;
  f_open_write : bool;
  f_append : bool;
  f_permissions : Z;
  f_slots : nat
}.

(** [mtab_ent_t] *)
Record mtab_ent := MtabEnt {
  mt_mp : string;
  mt_fs_name : string;
  mt_opts : string;
  mt_instance : Z;
  mt_service_id : Z
}.

(** [vfs_info_t], what the registry keeps of a registered backend. *)
Record vfs_info := VfsInfo {
  vi_name : string;
  vi_instance : Z;
  vi_concurrent_read_write : bool;
  vi_write_retains_size : bool;
  vi_fs_handle : Z
}.

(** ** The backends *)

(** The requests the broker sends to a backend ([VFS_OUT_*]); the first
    argument is the handle of the backend that is addressed. *)
Inductive out_request :=
  | VFS_OUT_MOUNTED (fs : Z) (service : Z) (opts : string)
  | VFS_OUT_MOUNT (fs : Z) (mp_service mp_index : Z) (child_fs child_service : Z)
      (opts : string)
  | VFS_OUT_UNMOUNT (fs : Z) (mp_service mp_index : Z)
  | VFS_OUT_UNMOUNTED (fs : Z) (service : Z)
  | VFS_OUT_OPEN_NODE (fs : Z) (service idx : Z)
  | VFS_OUT_READ (fs : Z) (service idx : Z) (pos_lo pos_hi : Z)
  | VFS_OUT_WRITE (fs : Z) (service idx : Z) (pos_lo pos_hi : Z)
  | VFS_OUT_TRUNCATE (fs : Z) (service idx : Z) (size_lo size_hi : Z)
  | VFS_OUT_SYNC (fs : Z) (service idx : Z)
  | VFS_OUT_STAT (fs : Z) (service idx : Z)
  | VFS_OUT_DESTROY (fs : Z) (service idx : Z).

(** What comes back: the result of the connection hand-over and of the data
    phase that accompany a request (where it has them), and the reply. *)
Record ipc_answer := Answer {
  a_conn : errno;
  a_data : errno;
  a_rc : errno;
  a_arg1 : Z;
  a_arg2 : Z;
  a_arg3 : Z
}.

(** The backends as the broker sees them.  [vfs_lookup_internal] and
    [vfs_link_internal] (vfs_lookup.c) talk to the backends and are part of
    this interface; like the C functions they return a status and, on [EOK],
    a lookup result. *)
Class Backend (W : Type) := {
  vfs_lookup_internal : W -> vfs_triplet -> string -> Z -> W * (errno * vfs_lookup_res);
  vfs_link_internal : W -> vfs_triplet -> string -> vfs_triplet -> W * errno;
  backend_call : W -> out_request -> W * ipc_answer
}.

(** ** Broker state *)

(** What the broker has done, in order. *)
Inductive event :=
  | EvAnswer (rid : Z) (rc : errno) (args : list Z)
  | EvLookup (base : vfs_triplet) (path : string) (lflag : Z) (rc : errno)
  | EvLink (base : vfs_triplet) (path : string) (child : vfs_triplet) (rc : errno)
  | EvRelink (base : vfs_triplet) (path : string) (child : vfs_triplet) (rc : errno)
  | EvOut (req : out_request).

Record vfs_state (W : Type) := State {
  world : W;
  registry : list vfs_info;
  nodes : gmap nat vfs_node;
  next_node : nat;
  files : gmap nat vfs_file;
  next_file : nat;
  fds : gmap Z nat;
  root : option nat;
  mtab_list : list mtab_ent;
  mtab_size : nat;
  log : list event
}.

Arguments State {W}.
Arguments world {W}.
Arguments registry {W}.
Arguments nodes {W}.
Arguments next_node {W}.
Arguments files {W}.
Arguments next_file {W}.
Arguments fds {W}.
Arguments root {W}.
Arguments mtab_list {W}.
Arguments mtab_size {W}.
Arguments log {W}.

(** How a call of the broker ends: it returns, or it stops at an assertion,
    at a read through an invalid pointer, or waiting for a condition that no
    step of the call itself can establish. *)
Inductive abort :=
  | ASSERT_FAILED (what : string)
  | UNDEFINED (what : string)
  | BLOCKED.

Inductive result (A : Type) :=
  | Done (a : A)
  | Abort (why : abort).

Arguments Done {A}.
Arguments Abort {A}.

#[global] Instance result_ret : MRet result := fun A a => Done a.
#[global] Instance result_bind : MBind result := fun A B f m =>
  match m with
  | Done a => f a
  | Abort why => Abort why
  end.

Section Broker.
Context {W : Type} `{!Backend W}.

(** *** Field updates *)

Definition set_world (w : W) (st : vfs_state W) : vfs_state W :=
  State w (registry st) (nodes st) (next_node st) (files st) (next_file st)
    (fds st) (root st) (mtab_list st) (mtab_size st) (log st).
Definition set_registry (r : list vfs_info) (st : vfs_state W) : vfs_state W :=
  State (world st) r (nodes st) (next_node st) (files st) (next_file st)
    (fds st) (root st) (mtab_list st) (mtab_size st) (log st).
Definition set_nodes (ns : gmap nat vfs_node) (st : vfs_state W) : vfs_state W :=
  State (world st) (registry st) ns (next_node st) (files st) (next_file st)
    (fds st) (root st) (mtab_list st) (mtab_size st) (log st).
Definition set_next_node (n : nat) (st : vfs_state W) : vfs_state W :=
  State (world st) (registry st) (nodes st) n (files st) (next_file st)
    (fds st) (root st) (mtab_list st) (mtab_size st) (log st).
Definition set_files (fs : gmap nat vfs_file) (st : vfs_state W) : vfs_state W :=
  State (world st) (registry st) (nodes st) (next_node st) fs (next_file st)
    (fds st) (root st) (mtab_list st) (mtab_size st) (log st).
Definition set_next_file (n : nat) (st : vfs_state W) : vfs_state W :=
  State (world st) (registry st) (nodes st) (next_node st) (files st) n
    (fds st) (root st) (mtab_list st) (mtab_size st) (log st).
Definition set_fds (t : gmap Z nat) (st : vfs_state W) : vfs_state W :=
  State (world st) (registry st) (nodes st) (next_node st) (files st) (next_file st)
    t (root st) (mtab_list st) (mtab_size st) (log st).
Definition set_root (r : option nat) (st : vfs_state W) : vfs_state W :=
  State (world st) (registry st) (nodes st) (next_node st) (files st) (next_file st)
    (fds st) r (mtab_list st) (mtab_size st) (log st).
Definition set_mtab (l : list mtab_ent) (n : nat) (st : vfs_state W) : vfs_state W :=
  State (world st) (registry st) (nodes st) (next_node st) (files st) (next_file st)
    (fds st) (root st) l n (log st).
Definition set_log (l : list event) (st : vfs_state W) : vfs_state W :=
  State (world st) (registry st) (nodes st) (next_node st) (files st) (next_file st)
    (fds st) (root st) (mtab_list st) (mtab_size st) l.

(** *** Talking to the client and to the backends *)

(** [async_answer_N(rid, rc, args)] *)
Definition answer (rid : Z) (rc : errno) (args : list Z) (st : vfs_state W) : vfs_state W :=
  set_log (log st ++ [EvAnswer rid rc args]) st.

(** A call of [vfs_lookup_internal]. *)
Definition do_lookup (base : vfs_triplet) (path : string) (lflag : Z) (st : vfs_state W)
  : (errno * vfs_lookup_res) * vfs_state W :=
  let '(w, r) := vfs_lookup_internal (world st) base path lflag in
  (r, set_log (log st ++ [EvLookup base path lflag r.1]) (set_world w st)).

(** A call of [vfs_link_internal] whose status the caller looks at. *)
Definition do_link (base : vfs_triplet) (path : string) (child : vfs_triplet)
    (st : vfs_state W) : errno * vfs_state W :=
  let '(w, rc) := vfs_link_internal (world st) base path child in
  (rc, set_log (log st ++ [EvLink base path child rc]) (set_world w st)).

(** A call of [vfs_link_internal] that puts an unlinked name back; the
    callers drop its status. *)
Definition do_relink (base : vfs_triplet) (path : string) (child : vfs_triplet)
    (st : vfs_state W) : vfs_state W :=
  let '(w, rc) := vfs_link_internal (world st) base path child in
  set_log (log st ++ [EvRelink base path child rc]) (set_world w st).

(** A request to a backend ([vfs_exchange_grab], send, wait, release). *)
Definition do_call (req : out_request) (st : vfs_state W) : ipc_answer * vfs_state W :=
  let '(w, a) := backend_call (world st) req in
  (a, set_log (log st ++ [EvOut req]) (set_world w st)).

(** *** The node cache *)

(** Modelled from the spec: vfs_node.c is not among the sources.  Section 4.2
    of the specification: [get] interns by triplet, a node that is present
    gains a reference, a node that is absent is installed with one reference
    and the size and type the backend reported; [put] drops a reference and,
    at zero, removes the node and sends [DESTROY]; [forget] removes the node
    without telling the backend; [refcount_sum] adds up the references of the
    cached nodes of one mounted file system.  Nodes live at addresses that
    are never handed out twice. *)
Definition node_find (ns : gmap nat vfs_node) (t : vfs_triplet) : option nat :=
  fst <$> head (filter (fun pn : nat * vfs_node => n_triplet pn.2 = t) (map_to_list ns)).

Definition node_addref (n : vfs_node) : vfs_node :=
  Node (n_triplet n) (n_type n) (n_size n) (S (n_refcnt n)).
Definition node_delref (n : vfs_node) : vfs_node :=
  Node (n_triplet n) (n_type n) (n_size n) (pred (n_refcnt n)).
Definition node_set_size (sz : Z) (n : vfs_node) : vfs_node :=
  Node (n_triplet n) (n_type n) sz (n_refcnt n).

Definition vfs_node_get (lr : vfs_lookup_res) (st : vfs_state W) : option nat * vfs_state W :=
  match node_find (nodes st) (lr_triplet lr) with
  | Some p => (Some p, set_nodes (alter node_addref p (nodes st)) st)
  | None =>
      let p := next_node st in
      (Some p,
       set_next_node (S p)
         (set_nodes (<[p := Node (lr_triplet lr) (lr_type lr) (lr_size lr) 1]> (nodes st)) st))
  end.

(** [node->field] through a node pointer. *)
Definition node_at (p : nat) (st : vfs_state W) : result vfs_node :=
  match nodes st !! p with
  | Some n => Done n
  | None => Abort (UNDEFINED "node pointer")
  end.

Definition vfs_node_put (p : nat) (st : vfs_state W) : result (vfs_state W) :=
  n ← node_at p st;
  if bool_decide (n_refcnt n ≤ 1)%nat then
    let st := set_nodes (delete p (nodes st)) st in
    let t := n_triplet n in
    Done (do_call (VFS_OUT_DESTROY (fs_handle t) (service_id t) (index t)) st).2
  else Done (set_nodes (<[p := node_delref n]> (nodes st)) st).

Definition vfs_node_forget (p : nat) (st : vfs_state W) : result (vfs_state W) :=
  n ← node_at p st;
  Done (set_nodes (delete p (nodes st)) st).

Definition vfs_nodes_refcount_sum_get (fs service : Z) (st : vfs_state W) : nat :=
  sum_list
    (map (fun pn : nat * vfs_node => n_refcnt pn.2)
       (filter (fun pn : nat * vfs_node =>
                  fs_handle (n_triplet pn.2) = fs /\ service_id (n_triplet pn.2) = service)
          (map_to_list (nodes st)))).

(** [vfs_open_node_remote]: ask the backend to open the node. *)
Definition vfs_open_node_remote (n : vfs_node) (st : vfs_state W) : errno * vfs_state W :=
  let t := n_triplet n in
  let '(a, st) := do_call (VFS_OUT_OPEN_NODE (fs_handle t) (service_id t) (index t)) st in
  (a_rc a, st).

(** *** The descriptor table *)

(** Modelled from the spec: vfs_file.c is not among the sources.  Section 4.5
    of the specification: [alloc] returns the lowest free slot with a fresh
    descriptor in it; [assign] binds an existing descriptor to a chosen free
    slot and bumps the reference count of its node; [get] finds the
    descriptor of a slot; [free] clears the slot and drops the reference on
    the node.  The reference that [get] takes and [put] gives back does not
    outlive a call and is not represented. *)
Definition vfs_file_get (fd : Z) (st : vfs_state W) : option (nat * vfs_file) :=
  p ← fds st !! fd;
  f ← files st !! p;
  Some (p, f).

Definition set_file (p : nat) (f : vfs_file) (st : vfs_state W) : vfs_state W :=
  set_files (<[p := f]> (files st)) st.

Fixpoint lowest_free (t : gmap Z nat) (from : Z) (n : nat) : option Z :=
  match n with
  | O => None
  | S n' =>
      match t !! from with
      | None => Some from
      | Some _ => lowest_free t (from + 1) n'
      end
  end.

Definition vfs_fd_alloc (st : vfs_state W) : (errno + Z) * vfs_state W :=
  match lowest_free (fds st) 0 MAX_OPEN_FILES with
  | None => (inl ENOMEM, st)
  | Some fd =>
      let p := next_file st in
      (inr fd,
       set_fds (<[fd := p]> (fds st))
         (set_next_file (S p)
            (set_files (<[p := File 0 0 false false false 0 1]> (files st)) st)))
  end.

Definition file_set_slots (k : nat) (f : vfs_file) : vfs_file :=
  File (f_node f) (f_pos f) (f_open_read f) (f_open_write f) (f_append f)
    (f_permissions f) k.

Definition vfs_fd_free (fd : Z) (st : vfs_state W) : result (errno * vfs_state W) :=
  match vfs_file_get fd st with
  | None => Done (EBADF, st)
  | Some (p, f) =>
      let st := set_fds (delete fd (fds st)) st in
      let st :=
        if bool_decide (f_slots f ≤ 1)%nat
        then set_files (delete p (files st)) st
        else set_file p (file_set_slots (pred (f_slots f)) f) st in
      st ← vfs_node_put (f_node f) st;
      Done (EOK, st)
  end.

Definition vfs_fd_assign (p : nat) (fd : Z) (st : vfs_state W)
  : result (errno * vfs_state W) :=
  if bool_decide (fd < 0) || bool_decide (Z.of_nat MAX_OPEN_FILES ≤ fd)
     || bool_decide (is_Some (fds st !! fd))
  then Done (EINVAL, st)
  else
    match files st !! p with
    | None => Abort (UNDEFINED "file pointer")
    | Some f =>
        n ← node_at (f_node f) st;
        let st := set_nodes (<[f_node f := node_addref n]> (nodes st)) st in
        let st := set_file p (file_set_slots (S (f_slots f)) f) st in
        Done (EOK, set_fds (<[fd := p]> (fds st)) st)
    end.

(** *** The registry of backends *)

(** Modelled from the spec: vfs_register.c is not among the sources; the
    registry is keyed by instance and file-system name, and 0 is the handle
    of no backend. *)
Definition fs_name_to_handle (instance : Z) (name : string) (st : vfs_state W) : Z :=
  match
    head (filter (fun i : vfs_info => vi_name i = name /\ vi_instance i = instance)
            (registry st))
  with
  | Some i => vi_fs_handle i
  | None => 0
  end.

Definition fs_handle_to_info (fs : Z) (st : vfs_state W) : option vfs_info :=
  head (filter (fun i : vfs_info => vi_fs_handle i = fs) (registry st)).

(** [(vfs_triplet_t * ) node]: the triplet a node pointer starts with; the
    resolver needs a base, so a null pointer is an invalid read. *)
Definition base_of (p : option nat) (st : vfs_state W) : result vfs_triplet :=
  match p with
  | None => Abort (UNDEFINED "null base")
  | Some p => n ← node_at p st; Done (n_triplet n)
  end.

(** ** The operations of vfs_ops.c *)

(** A bulk payload as [async_data_write_accept] delivers it: its status and
    the buffer. *)
Definition payload : Type := errno * string.

(** *** Mount *)

Definition vfs_mount_internal (rid service fs : Z) (mp opts : string) (st : vfs_state W)
  : result (errno * vfs_state W) :=
  match root st with
  | None =>
      (* We still don't have the root file system mounted. *)
      if negb (bool_decide (mp = "/")) then Done (ENOENT, answer rid ENOENT [] st)
      else
        let '(a, st) := do_call (VFS_OUT_MOUNTED fs service opts) st in
        if negb (is_EOK (a_data a)) then Done (a_data a, answer rid (a_data a) [] st)
        else if negb (is_EOK (a_rc a)) then Done (a_rc a, answer rid (a_rc a) [] st)
        else
          let mr_res :=
            LookupRes (Triplet fs service (a_arg1 a))
              (MERGE_LOUP32 (a_arg2 a) (a_arg3 a)) VFS_NODE_DIRECTORY in
          let '(r, st) := vfs_node_get mr_res st in
          match r with
          | None => Abort (ASSERT_FAILED "root")
          | Some p => Done (a_rc a, answer rid (a_rc a) [] (set_root (Some p) st))
          end
  | Some rootp =>
      (* We already have the root FS. *)
      if bool_decide (mp = "/") then Done (EBUSY, answer rid EBUSY [] st)
      else
        base ← base_of (Some rootp) st;
        let '((rc, mp_res), st) := do_lookup base mp L_DIRECTORY st in
        if negb (is_EOK rc) then Done (rc, answer rid rc [] st)
        else
          let '(r, st) := vfs_node_get mp_res st in
          match r with
          | None => Done (ENOMEM, answer rid ENOMEM [] st)
          | Some mp_node =>
              let t := lr_triplet mp_res in
              let '(a, st) :=
                do_call (VFS_OUT_MOUNT (fs_handle t) (service_id t) (index t) fs service opts)
                  st in
              if negb (is_EOK (a_conn a)) then
                st ← vfs_node_put mp_node st;
                Done (a_conn a, answer rid (a_conn a) [] st)
              else if negb (is_EOK (a_data a)) then
                st ← vfs_node_put mp_node st;
                Done (a_data a, answer rid (a_data a) [] st)
              else if is_EOK (a_rc a) then
                let mr_res :=
                  LookupRes (Triplet fs service (a_arg1 a))
                    (MERGE_LOUP32 (a_arg2 a) (a_arg3 a)) VFS_NODE_DIRECTORY in
                let '(r, st) := vfs_node_get mr_res st in
                match r with
                | None => Abort (ASSERT_FAILED "mr_node")
                | Some _ => Done (a_rc a, answer rid (a_rc a) [] st)
                end
              else
                st ← vfs_node_put mp_node st;
                Done (a_rc a, answer rid (a_rc a) [] st)
          end
  end.

(** [ping] tells whether the call that follows the payloads is
    [VFS_IN_PING]; [callid] is that call. *)
Definition vfs_mount (rid service flags instance : Z) (mp opts fs_name : payload)
    (ping : bool) (callid : Z) (st : vfs_state W) : result (vfs_state W) :=
  if negb (is_EOK mp.1) then Done (answer rid mp.1 [] st)
  else if negb (is_EOK opts.1) then Done (answer rid opts.1 [] st)
  else if negb (is_EOK fs_name.1) then Done (answer rid fs_name.1 [] st)
  else if negb ping then Done (answer rid ENOTSUP [] (answer callid ENOTSUP [] st))
  else
    let fs := fs_name_to_handle instance fs_name.2 st in
    if bool_decide (fs = 0) then
      if cbool (Z.land flags IPC_FLAG_BLOCKING) then Abort BLOCKED
      else Done (answer rid ENOENT [] (answer callid ENOENT [] st))
    else
      '(rc, st) ← vfs_mount_internal rid service fs mp.2 opts.2 st;
      if negb (is_EOK rc) then Done (answer rid ENOTSUP [] (answer callid ENOTSUP [] st))
      else
        let ent := MtabEnt mp.2 fs_name.2 opts.2 instance service in
        let st := set_mtab (mtab_list st ++ [ent]) (S (mtab_size st)) st in
        Done (answer callid EOK [] st).

(** *** Unmount *)

Fixpoint mtab_remove (mp : string) (l : list mtab_ent) : option (list mtab_ent) :=
  match l with
  | [] => None
  | e :: l' =>
      if bool_decide (mt_mp e = mp) then Some l'
      else cons e <$> mtab_remove mp l'
  end.

Definition vfs_unmount (rid : Z) (mp : payload) (st : vfs_state W) : result (vfs_state W) :=
  if negb (is_EOK mp.1) then
    (* the status is answered, the function goes on with a buffer it never got *)
    Abort (UNDEFINED "mp")
  else
    let mp := mp.2 in
    (* Lookup the mounted root and instantiate it. *)
    base ← base_of (root st) st;
    let '((rc, mr_res), st) := do_lookup base mp 0 st in
    if negb (is_EOK rc) then Done (answer rid rc [] st)
    else
      let '(r, st) := vfs_node_get mr_res st in
      match r with
      | None => Done (answer rid ENOMEM [] st)
      | Some mr_node =>
          mr ← node_at mr_node st;
          if negb (bool_decide
                     (vfs_nodes_refcount_sum_get (fs_handle (n_triplet mr))
                        (service_id (n_triplet mr)) st = 2%nat))
          then
            st ← vfs_node_put mr_node st;
            Done (answer rid EBUSY [] st)
          else
            st ←
              (if bool_decide (mp = "/") then
                 (* Unmounting the root file system. *)
                 let '(a, st) :=
                   do_call (VFS_OUT_UNMOUNTED (fs_handle (n_triplet mr))
                              (service_id (n_triplet mr))) st in
                 if negb (is_EOK (a_rc a)) then
                   st ← vfs_node_put mr_node st;
                   Done (inl (answer rid (a_rc a) [] st))
                 else Done (inr (set_root None st))
               else
                 (* Unmounting a non-root file system. *)
                 base ← base_of (root st) st;
                 let '((rc, mp_res), st) := do_lookup base mp L_MP st in
                 if negb (is_EOK rc) then
                   st ← vfs_node_put mr_node st;
                   Done (inl (answer rid rc [] st))
                 else
                   let '(r, st) := vfs_node_get mp_res st in
                   match r with
                   | None =>
                       st ← vfs_node_put mr_node st;
                       Done (inl (answer rid ENOMEM [] st))
                   | Some mp_node =>
                       mpn ← node_at mp_node st;
                       let t := n_triplet mpn in
                       let '(a, st) :=
                         do_call (VFS_OUT_UNMOUNT (fs_handle t) (service_id t) (index t)) st in
                       if negb (is_EOK (a_rc a)) then
                         st ← vfs_node_put mp_node st;
                         st ← vfs_node_put mr_node st;
                         Done (inl (answer rid (a_rc a) [] st))
                       else
                         (* Drop the reference we got above. *)
                         st ← vfs_node_put mp_node st;
                         (* Drop the reference from when the file system was mounted. *)
                         st ← vfs_node_put mp_node st;
                         Done (inr st)
                   end);
            match st with
            | inl st => Done st
            | inr st =>
                st ← vfs_node_forget mr_node st;
                match mtab_remove mp (mtab_list st) with
                | None => Abort (ASSERT_FAILED "found")
                | Some l =>
                    Done (answer rid EOK [] (set_mtab l (pred (mtab_size st)) st))
                end
            end
      end.

(** *** Walk and open *)

Definition file_set_walked (node : nat) (perm : Z) (f : vfs_file) : vfs_file :=
  File node (f_pos f) false false (f_append f) perm (f_slots f).

Definition vfs_walk (rid parentfd flags : Z) (path : payload) (st : vfs_state W)
  : result (vfs_state W) :=
  if negb (walk_flags_valid flags) then Done (answer rid EINVAL [] st)
  else
    if negb (is_EOK path.1) then
      (* the status of the transfer is not looked at, the buffer is used *)
      Abort (UNDEFINED "path")
    else
    let parent := if bool_decide (parentfd = -1) then None else vfs_file_get parentfd st in
    if negb (bool_decide (parentfd = -1)) && bool_decide (parent = None)
    then Done (answer rid EBADF [] st)
    else
      base ← base_of (match parent with
                       | Some (_, pf) => Some (f_node pf)
                       | None => root st
                       end) st;
      let '((rc, lr), st) := do_lookup base path.2 (walk_lookup_flags flags) st in
      if negb (is_EOK rc) then Done (answer rid rc [] st)
      else
        let '(r, st) := vfs_node_get lr st in
        match r with
        | None => Abort (UNDEFINED "node")
        | Some node =>
            let '(fd, st) := vfs_fd_alloc st in
            match fd with
            | inl e =>
                st ← vfs_node_put node st;
                Done (answer rid e [] st)
            | inr fd =>
                match vfs_file_get fd st with
                | None => Abort (ASSERT_FAILED "file != NULL")
                | Some (p, file) =>
                    let perm :=
                      match parent with
                      | Some (_, pf) => f_permissions pf
                      | None => Z.lor (Z.lor MODE_READ MODE_WRITE) MODE_APPEND
                      end in
                    let st := set_file p (file_set_walked node perm file) st in
                    Done (answer rid EOK [fd] st)
                end
            end
        end.

Definition file_set_open (r w a : bool) (f : vfs_file) : vfs_file :=
  File (f_node f) (f_pos f) r w a (f_permissions f) (f_slots f).

Definition file_reset_open (f : vfs_file) : vfs_file :=
  File (f_node f) (f_pos f) false false (f_append f) (f_permissions f) (f_slots f).

Definition vfs_open2 (rid fd flags : Z) (st : vfs_state W) : result (vfs_state W) :=
  if bool_decide (flags = 0) then Done (answer rid EINVAL [] st)
  else
    match vfs_file_get fd st with
    | None => Done (answer rid EBADF [] st)
    | Some (p, file) =>
        if cbool (Z.land flags (Z.lnot (f_permissions file)))
        then Done (answer rid EPERM [] st)
        else
          let file :=
            file_set_open (cbool (Z.land flags MODE_READ))
              (cbool (Z.land flags (Z.lor MODE_WRITE MODE_APPEND)))
              (cbool (Z.land flags MODE_APPEND)) file in
          let st := set_file p file st in
          if negb (f_open_read file) && negb (f_open_write file)
          then Done (answer rid EINVAL [] st)
          else
            node ← node_at (f_node file) st;
            if bool_decide (n_type node = VFS_NODE_DIRECTORY) && f_open_write file
            then Done (answer rid EINVAL [] (set_file p (file_reset_open file) st))
            else
              let '(rc, st) := vfs_open_node_remote node st in
              if negb (is_EOK rc)
              then Done (answer rid rc [] (set_file p (file_reset_open file) st))
              else Done (answer rid EOK [] st)
    end.

(** *** Sync and close *)

Definition vfs_sync (rid fd : Z) (st : vfs_state W) : result (vfs_state W) :=
  match vfs_file_get fd st with
  | None => Done (answer rid ENOENT [] st)
  | Some (p, file) =>
      node ← node_at (f_node file) st;
      let t := n_triplet node in
      let '(a, st) := do_call (VFS_OUT_SYNC (fs_handle t) (service_id t) (index t)) st in
      Done (answer rid (a_rc a) [] st)
  end.

Definition vfs_close (rid fd : Z) (st : vfs_state W) : result (vfs_state W) :=
  '(ret, st) ← vfs_fd_free fd st;
  Done (answer rid ret [] st).

(** *** Read and write *)

Definition file_set_pos (pos : Z) (f : vfs_file) : vfs_file :=
  File (f_node f) pos (f_open_read f) (f_open_write f) (f_append f)
    (f_permissions f) (f_slots f).

Definition vfs_rdwr (rid fd : Z) (read : bool) (st : vfs_state W) : result (vfs_state W) :=
  match vfs_file_get fd st with
  | None => Done (answer rid ENOENT [] st)
  | Some (p, file) =>
      if (read && negb (f_open_read file)) || (negb read && negb (f_open_write file))
      then Done (answer rid EINVAL [] st)
      else
        node ← node_at (f_node file) st;
        let t := n_triplet node in
        match fs_handle_to_info (fs_handle t) st with
        | None => Abort (ASSERT_FAILED "fs_info")
        | Some fs_info =>
            let shared_lock :=
              read || (vi_concurrent_read_write fs_info && vi_write_retains_size fs_info) in
            if bool_decide (n_type node = VFS_NODE_DIRECTORY) && negb read
            then Abort (ASSERT_FAILED "read")
            else
              let file :=
                if negb read && f_append file then file_set_pos (n_size node) file
                else file in
              let st := set_file p file st in
              let req :=
                if read
                then VFS_OUT_READ (fs_handle t) (service_id t) (index t)
                       (LOWER32 (f_pos file)) (UPPER32 (f_pos file))
                else VFS_OUT_WRITE (fs_handle t) (service_id t) (index t)
                       (LOWER32 (f_pos file)) (UPPER32 (f_pos file)) in
              let '(a, st) := do_call req st in
              let rc := a_rc a in
              let bytes := a_arg1 a in
              let st :=
                if negb shared_lock && is_EOK rc
                then set_nodes
                       (<[f_node file :=
                            node_set_size (MERGE_LOUP32 (a_arg2 a) (a_arg3 a)) node]>
                          (nodes st)) st
                else st in
              let st :=
                if is_EOK rc
                then set_file p (file_set_pos (to_aoff64 (f_pos file + bytes)) file) st
                else st in
              Done (answer rid rc [bytes] st)
        end
  end.

Definition vfs_read (rid fd : Z) (st : vfs_state W) : result (vfs_state W) :=
  vfs_rdwr rid fd true st.

Definition vfs_write (rid fd : Z) (st : vfs_state W) : result (vfs_state W) :=
  vfs_rdwr rid fd false st.

(** *** Seek *)

Definition vfs_seek (rid fd arg2 arg3 whence : Z) (st : vfs_state W)
  : result (vfs_state W) :=
  let off := to_off64 (MERGE_LOUP32 arg2 arg3) in
  match vfs_file_get fd st with
  | None => Done (answer rid ENOENT [] st)
  | Some (p, file) =>
      let pos := f_pos file in
      if bool_decide (whence = SEEK_SET) then
        if bool_decide (0 ≤ off)
        then Done (answer rid EOK [off] (set_file p (file_set_pos (to_aoff64 off) file) st))
        else Done (answer rid EINVAL [] st)
      else if bool_decide (whence = SEEK_CUR) then
        if bool_decide (0 ≤ off) && bool_decide (to_aoff64 (pos + to_aoff64 off) < pos)
        then Done (answer rid EOVERFLOW [] st)
        else if bool_decide (off < 0) && bool_decide (pos < to_aoff64 (- off))
        then Done (answer rid EOVERFLOW [] st)
        else
          let pos' := to_aoff64 (pos + to_aoff64 off) in
          let newoff := if bool_decide (OFF64_MAX < pos') then OFF64_MAX else pos' in
          Done (answer rid EOK [LOWER32 newoff; UPPER32 newoff]
                  (set_file p (file_set_pos pos' file) st))
      else if bool_decide (whence = SEEK_END) then
        node ← node_at (f_node file) st;
        let size := n_size node in
        if bool_decide (0 ≤ off) && bool_decide (to_aoff64 (size + to_aoff64 off) < size)
        then Done (answer rid EOVERFLOW [] st)
        else if bool_decide (off < 0) && bool_decide (size < to_aoff64 (- off))
        then Done (answer rid EOVERFLOW [] st)
        else
          let pos' := to_aoff64 (size + to_aoff64 off) in
          let newoff := if bool_decide (OFF64_MAX < pos') then OFF64_MAX else pos' in
          Done (answer rid EOK [LOWER32 newoff; UPPER32 newoff]
                  (set_file p (file_set_pos pos' file) st))
      else Done (answer rid EINVAL [] st)
  end.

(** *** Truncate and stat *)

Definition vfs_truncate_internal (t : vfs_triplet) (size : Z) (st : vfs_state W)
  : errno * vfs_state W :=
  let '(a, st) :=
    do_call (VFS_OUT_TRUNCATE (fs_handle t) (service_id t) (index t)
               (LOWER32 size) (UPPER32 size)) st in
  (a_rc a, st).

Definition vfs_truncate (rid fd arg2 arg3 : Z) (st : vfs_state W) : result (vfs_state W) :=
  let size := MERGE_LOUP32 arg2 arg3 in
  match vfs_file_get fd st with
  | None => Done (answer rid ENOENT [] st)
  | Some (p, file) =>
      node ← node_at (f_node file) st;
      let '(rc, st) := vfs_truncate_internal (n_triplet node) size st in
      let st :=
        if is_EOK rc
        then set_nodes (<[f_node file := node_set_size size node]> (nodes st)) st
        else st in
      Done (answer rid rc [] st)
  end.

(** [recv] tells whether the client sent the read request that is to be
    forwarded; [callid] is that request. *)
Definition vfs_fstat (rid fd : Z) (recv : bool) (callid : Z) (st : vfs_state W)
  : result (vfs_state W) :=
  match vfs_file_get fd st with
  | None => Done (answer rid ENOENT [] st)
  | Some (p, file) =>
      if negb recv then Done (answer rid EINVAL [] (answer callid EINVAL [] st))
      else
        node ← node_at (f_node file) st;
        let t := n_triplet node in
        let '(a, st) := do_call (VFS_OUT_STAT (fs_handle t) (service_id t) (index t)) st in
        Done (answer rid (a_rc a) [] st)
  end.

(** *** Unlink *)

(** [__builtin_memcmp(&lr.triplet, expect->node, sizeof(vfs_triplet_t)) != 0]:
    the two objects are compared byte by byte over the size of the
    structure.  The bytes of the three fields differ exactly when a field
    differs.  The bytes of the structure that belong to no field take part
    as well; no assignment writes them, and [lr] is a local variable without
    an initialiser, so there they hold what the stack held.  [pad_equal] tells
    whether those bytes are the same in the two objects; for a structure
    without such bytes it is [true]. *)
Definition triplet_bytes_differ (pad_equal : bool) (a b : vfs_triplet) : bool :=
  negb (bool_decide (a = b) && pad_equal).

Definition vfs_unlink2 (rid parentfd expectfd wflag : Z) (path : payload)
    (pad_equal : bool) (st : vfs_state W) : result (vfs_state W) :=
  if negb (is_EOK path.1) then Done (answer rid path.1 [] st)
  else
    let path := path.2 in
    let lflag := if cbool (Z.land wflag WALK_DIRECTORY) then L_DIRECTORY else 0 in
    let parent := if bool_decide (0 ≤ parentfd) then vfs_file_get parentfd st else None in
    if bool_decide (0 ≤ parentfd) && bool_decide (parent = None)
    then Done (answer rid ENOENT [] st)
    else
      let parent_node :=
        match parent with
        | Some (_, pf) => Some (f_node pf)
        | None => root st
        end in
      (* the check against the expected descriptor; [inl] is the way to [exit] *)
      chk ←
        (if bool_decide (0 ≤ expectfd) then
           match vfs_file_get expectfd st with
           | None => Done (inl (ENOENT, st))
           | Some (_, expect) =>
               base ← base_of parent_node st;
               let '((rc, lr), st) := do_lookup base path lflag st in
               if negb (is_EOK rc) then Done (inl (rc, st))
               else
                 en ← node_at (f_node expect) st;
                 if triplet_bytes_differ pad_equal (lr_triplet lr) (n_triplet en)
                 then Done (inl (ENOENT, st))
                 else Done (inr st)
           end
         else Done (inr st));
      match chk with
      | inl (rc, st) => Done (answer rid rc [] st)
      | inr st =>
          base ← base_of parent_node st;
          let '((rc, lr), st) := do_lookup base path (Z.lor lflag L_UNLINK) st in
          if negb (is_EOK rc) then Done (answer rid rc [] st)
          else
            (* The name has already been unlinked by vfs_lookup_internal(). *)
            let '(r, st) := vfs_node_get lr st in
            match r with
            | None => Abort (UNDEFINED "node")
            | Some node =>
                st ← vfs_node_put node st;
                Done (answer rid rc [] st)
            end
      end.

(** *** Rename *)

(** The three steps of [vfs_rename_internal], below its prefix check and the
    resolution of the shared part of the two paths. *)
Definition vfs_rename_steps (base : vfs_triplet) (old new : string) (st : vfs_state W)
  : result (errno * vfs_state W) :=
  let '((rc, new_lr_orig), st) :=
    do_lookup base new (Z.lor L_UNLINK L_DISABLE_MOUNTS) st in
  if negb (is_EOK rc) && negb (bool_decide (rc = ENOENT)) then Done (rc, st)
  else
    let orig_unlinked := is_EOK rc in
    let '((rc, old_lr), st) :=
      do_lookup base old (Z.lor L_UNLINK L_DISABLE_MOUNTS) st in
    if negb (is_EOK rc) then
      let st :=
        if orig_unlinked then do_relink base new (lr_triplet new_lr_orig) st else st in
      Done (rc, st)
    else
      let '(rc, st) := do_link base new (lr_triplet old_lr) st in
      if negb (is_EOK rc) then
        let st := do_relink base old (lr_triplet old_lr) st in
        let st :=
          if orig_unlinked then do_relink base new (lr_triplet new_lr_orig) st else st in
        Done (rc, st)
      else
        if orig_unlinked then
          let '(r, st) := vfs_node_get new_lr_orig st in
          match r with
          | None => Abort (UNDEFINED "node")
          | Some node =>
              st ← vfs_node_put node st;
              Done (EOK, st)
          end
        else Done (EOK, st).

Definition vfs_rename_internal (base : vfs_triplet) (old new : string) (st : vfs_state W)
  : result (errno * vfs_state W) :=
  match shared_path old new with
  | None => Abort (UNDEFINED "shared_path")
  | Some shared =>
      (* Do not allow one path to be a prefix of the other. *)
      if bool_decide (strget old shared = NUL) || bool_decide (strget new shared = NUL)
      then Done (EINVAL, st)
      else if negb (bool_decide (strget old shared = SLASH))
      then Abort (ASSERT_FAILED "old[shared] == '/'")
      else if negb (bool_decide (strget new shared = SLASH))
      then Abort (ASSERT_FAILED "new[shared] == '/'")
      else if negb (bool_decide (shared = O)) then
        (* Resolve the shared portion of the path first. *)
        let '((rc, base_lr), st) := do_lookup base (str_cut shared old) L_DIRECTORY st in
        if negb (is_EOK rc) then Done (rc, st)
        else
          vfs_rename_steps (lr_triplet base_lr) (str_from shared old) (str_from shared new) st
      else vfs_rename_steps base old new st
  end.

(** [canonify] (lib/c) is outside the broker: any function from a path to
    its canonical form, or to nothing. *)
Variable canonify : string -> option string.

Definition vfs_rename (rid basefd : Z) (old new : payload) (st : vfs_state W)
  : result (vfs_state W) :=
  if negb (is_EOK old.1) then Done (answer rid old.1 [] st)
  else if negb (is_EOK new.1) then Done (answer rid new.1 [] st)
  else
    match canonify old.2, canonify new.2 with
    | Some oldc, Some newc =>
        let base := if bool_decide (basefd = -1) then None else vfs_file_get basefd st in
        if negb (bool_decide (basefd = -1)) && bool_decide (base = None)
        then Done (answer rid EBADF [] st)
        else
          b ← base_of (match base with
                        | Some (_, bf) => Some (f_node bf)
                        | None => root st
                        end) st;
          '(rc, st) ← vfs_rename_internal b oldc newc st;
          Done (answer rid rc [] st)
    | _, _ => Done (answer rid EINVAL [] st)
    end.

(** *** Dup *)

Definition vfs_dup (rid oldfd newfd : Z) (st : vfs_state W) : result (vfs_state W) :=
  (* If the file descriptors are the same, do nothing. *)
  if bool_decide (oldfd = newfd) then Done (answer rid EOK [newfd] st)
  else
    match vfs_file_get oldfd st with
    | None => Done (answer rid EBADF [] st)
    | Some (oldfile, _) =>
        (* Make sure newfd is closed. *)
        '(_, st) ← vfs_fd_free newfd st;
        (* Assign the old file to newfd. *)
        '(ret, st) ← vfs_fd_assign oldfile newfd st;
        if negb (is_EOK ret) then Done (answer rid ret [] st)
        else Done (answer rid EOK [newfd] st)
    end.

(** *** The mount table sent to a client *)

(** [script] tells, for each call the function waits for, whether the client
    sent the expected one. *)
Fixpoint mtab_stream (callid : Z) (l : list mtab_ent) (script : list bool)
    (st : vfs_state W) : errno * vfs_state W :=
  match l with
  | [] => (EOK, st)
  | e :: l' =>
      match script with
      | true :: true :: true :: true :: script' =>
          let st := answer callid EOK [] (answer callid EOK [] (answer callid EOK [] st)) in
          mtab_stream callid l' script'
            (answer callid EOK [mt_instance e; mt_service_id e] st)
      | true :: true :: true :: _ =>
          (ENOTSUP,
           answer callid ENOTSUP []
             (answer callid EOK [] (answer callid EOK [] (answer callid EOK [] st))))
      | true :: true :: _ =>
          (ENOTSUP, answer callid ENOTSUP [] (answer callid EOK [] (answer callid EOK [] st)))
      | true :: _ => (ENOTSUP, answer callid ENOTSUP [] (answer callid EOK [] st))
      | _ => (ENOTSUP, answer callid ENOTSUP [] st)
      end
  end.

Definition vfs_get_mtab (rid callid : Z) (ping : bool) (script : list bool)
    (st : vfs_state W) : result (vfs_state W) :=
  if negb ping then Done (answer rid ENOTSUP [] (answer callid ENOTSUP [] st))
  else
    let st := answer callid EOK [Z.of_nat (mtab_size st)] st in
    let '(rc, st) := mtab_stream callid (mtab_list st) script st in
    Done (answer rid rc [] st).

(** ** The broker as a transition system *)

Inductive request :=
  | VFS_IN_MOUNT (service flags instance : Z) (mp opts fs_name : payload) (ping : bool)
      (callid : Z)
  | VFS_IN_UNMOUNT (mp : payload)
  | VFS_IN_WALK (parentfd flags : Z) (path : payload)
  | VFS_IN_OPEN2 (fd flags : Z)
  | VFS_IN_READ (fd : Z)
  | VFS_IN_WRITE (fd : Z)
  | VFS_IN_SEEK (fd arg2 arg3 whence : Z)
  | VFS_IN_TRUNCATE (fd arg2 arg3 : Z)
  | VFS_IN_FSTAT (fd : Z) (recv : bool) (callid : Z)
  | VFS_IN_CLOSE (fd : Z)
  | VFS_IN_SYNC (fd : Z)
  | VFS_IN_UNLINK2 (parentfd expectfd wflag : Z) (path : payload) (pad_equal : bool)
  | VFS_IN_RENAME (basefd : Z) (old new : payload)
  | VFS_IN_DUP (oldfd newfd : Z)
  | VFS_IN_GET_MTAB (callid : Z) (ping : bool) (script : list bool).

Definition dispatch (rid : Z) (req : request) (st : vfs_state W) : result (vfs_state W) :=
  match req with
  | VFS_IN_MOUNT service flags instance mp opts fs_name ping callid =>
      vfs_mount rid service flags instance mp opts fs_name ping callid st
  | VFS_IN_UNMOUNT mp => vfs_unmount rid mp st
  | VFS_IN_WALK parentfd flags path => vfs_walk rid parentfd flags path st
  | VFS_IN_OPEN2 fd flags => vfs_open2 rid fd flags st
  | VFS_IN_READ fd => vfs_read rid fd st
  | VFS_IN_WRITE fd => vfs_write rid fd st
  | VFS_IN_SEEK fd arg2 arg3 whence => vfs_seek rid fd arg2 arg3 whence st
  | VFS_IN_TRUNCATE fd arg2 arg3 => vfs_truncate rid fd arg2 arg3 st
  | VFS_IN_FSTAT fd recv callid => vfs_fstat rid fd recv callid st
  | VFS_IN_CLOSE fd => vfs_close rid fd st
  | VFS_IN_SYNC fd => vfs_sync rid fd st
  | VFS_IN_UNLINK2 parentfd expectfd wflag path pad_equal =>
      vfs_unlink2 rid parentfd expectfd wflag path pad_equal st
  | VFS_IN_RENAME basefd old new => vfs_rename rid basefd old new st
  | VFS_IN_DUP oldfd newfd => vfs_dup rid oldfd newfd st
  | VFS_IN_GET_MTAB callid ping script => vfs_get_mtab rid callid ping script st
  end.

(** The broker at start-up: nothing mounted, nothing cached, no descriptor. *)
Definition initial_state (w : W) (reg : list vfs_info) : vfs_state W :=
  State w reg ∅ 0 ∅ 0 ∅ None [] 0 [].

(** The states the broker can be in: it starts empty, serves one request
    after the other, and between two requests the backends may do anything
    and register or unregister. *)
Inductive reachable : vfs_state W -> Prop :=
  | reach_init w reg : reachable (initial_state w reg)
  | reach_request st rid req st' :
      reachable st -> dispatch rid req st = Done st' -> reachable st'
  | reach_backend st w reg :
      reachable st -> reachable (set_registry reg (set_world w st)).

End Broker.

Arguments reachable {W _} canonify st.
Arguments dispatch {W _} canonify rid req st.
Arguments vfs_rename {W _} canonify rid basefd old new st.

(** ** A backend world: one directory graph *)

(** Modelled from the spec: vfs_lookup.c and the backends are not among the
    sources.  Section 4.4 of the specification: the resolver takes a base
    triplet, a path and flags and yields a lookup result or an error;
    [DIRECTORY] and [FILE] require the type of the terminal, [CREATE] creates
    a missing terminal, [CREATE] with [EXCLUSIVE] fails with [EEXIST] on an
    existing one, [UNLINK] removes the terminal name from its parent.  [LINK]
    enters a triplet under a new name.  A backend may fail a request; sections
    4.6 and 7 name [EIO] for that, and a failed request changes nothing.

    The name space is a graph of directory entries, keyed by the triplet of
    the directory and the name; [attrs] holds type and size of the nodes.
    Mount overlays are not part of this world, so [MP] and [DISABLE_MOUNTS]
    have nothing to act on.  [faults] tells for each coming resolver request
    whether the backend fails it, [answers] holds the replies to the coming
    other requests. *)
Record fs_world := FsWorld {
  dentries : gmap (vfs_triplet * string) vfs_triplet;
  attrs : gmap vfs_triplet (vfs_node_type * Z);
  next_index : Z;
  faults : list bool;
  answers : list ipc_answer
}.

(** The names between the slashes of a path. *)
Fixpoint components_from (acc : string) (s : string) : list string :=
  match s with
  | EmptyString => if bool_decide (acc = "") then [] else [acc]
  | String c s' =>
      if bool_decide (c = SLASH)
      then (if bool_decide (acc = "") then [] else [acc]) ++ components_from "" s'
      else components_from (acc +:+ String c "") s'
  end.

Definition path_components (s : string) : list string := components_from "" s.

Fixpoint split_last (l : list string) : option (list string * string) :=
  match l with
  | [] => None
  | x :: l' =>
      match l' with
      | [] => Some ([], x)
      | _ => (fun dn : list string * string => (x :: dn.1, dn.2)) <$> split_last l'
      end
  end.

(** Follow the names from a directory. *)
Fixpoint ns_walk (d : gmap (vfs_triplet * string) vfs_triplet) (cur : vfs_triplet)
    (names : list string) : option vfs_triplet :=
  match names with
  | [] => Some cur
  | c :: cs =>
      match d !! (cur, c) with
      | Some t => ns_walk d t cs
      | None => None
      end
  end.

Definition no_result : vfs_lookup_res := LookupRes (Triplet 0 0 0) 0 VFS_NODE_UNKNOWN.

Definition fs_result (w : fs_world) (t : vfs_triplet) : vfs_lookup_res :=
  match attrs w !! t with
  | Some (ty, sz) => LookupRes t sz ty
  | None => LookupRes t 0 VFS_NODE_UNKNOWN
  end.

Definition type_allowed (lflag : Z) (ty : vfs_node_type) : bool :=
  if cbool (Z.land lflag L_DIRECTORY) then bool_decide (ty = VFS_NODE_DIRECTORY)
  else if cbool (Z.land lflag L_FILE) then bool_decide (ty = VFS_NODE_FILE)
  else true.

Definition set_dentries (d : gmap (vfs_triplet * string) vfs_triplet) (w : fs_world)
  : fs_world :=
  FsWorld d (attrs w) (next_index w) (faults w) (answers w).

Definition set_faults (f : list bool) (w : fs_world) : fs_world :=
  FsWorld (dentries w) (attrs w) (next_index w) f (answers w).

(** The resolver on a backend that answers. *)
Definition ns_lookup (w : fs_world) (base : vfs_triplet) (path : string) (lflag : Z)
  : fs_world * (errno * vfs_lookup_res) :=
  match split_last (path_components path) with
  | None =>
      (* the path names the base itself *)
      if cbool (Z.land lflag L_UNLINK) then (w, (EBUSY, no_result))
      else if cbool (Z.land lflag L_CREATE) && cbool (Z.land lflag L_EXCLUSIVE)
      then (w, (EEXIST, no_result))
      else if type_allowed lflag (lr_type (fs_result w base))
      then (w, (EOK, fs_result w base))
      else (w, (ENOENT, no_result))
  | Some (dir, name) =>
      match ns_walk (dentries w) base dir with
      | None => (w, (ENOENT, no_result))
      | Some p =>
          match dentries w !! (p, name) with
          | None =>
              if cbool (Z.land lflag L_CREATE) then
                let t := Triplet (fs_handle p) (service_id p) (next_index w) in
                let ty :=
                  if cbool (Z.land lflag L_DIRECTORY) then VFS_NODE_DIRECTORY
                  else VFS_NODE_FILE in
                (FsWorld (<[(p, name) := t]> (dentries w)) (<[t := (ty, 0)]> (attrs w))
                   (next_index w + 1) (faults w) (answers w),
                 (EOK, LookupRes t 0 ty))
              else (w, (ENOENT, no_result))
          | Some t =>
              if cbool (Z.land lflag L_CREATE) && cbool (Z.land lflag L_EXCLUSIVE)
              then (w, (EEXIST, no_result))
              else if negb (type_allowed lflag (lr_type (fs_result w t)))
              then (w, (ENOENT, no_result))
              else if cbool (Z.land lflag L_UNLINK)
              then (set_dentries (delete (p, name) (dentries w)) w, (EOK, fs_result w t))
              else (w, (EOK, fs_result w t))
          end
      end
  end.

(** [LINK] on a backend that answers. *)
Definition ns_link (w : fs_world) (base : vfs_triplet) (path : string) (child : vfs_triplet)
  : fs_world * errno :=
  match split_last (path_components path) with
  | None => (w, EEXIST)
  | Some (dir, name) =>
      match ns_walk (dentries w) base dir with
      | None => (w, ENOENT)
      | Some p =>
          match dentries w !! (p, name) with
          | Some _ => (w, EEXIST)
          | None => (set_dentries (<[(p, name) := child]> (dentries w)) w, EOK)
          end
      end
  end.

Definition fs_lookup (w : fs_world) (base : vfs_triplet) (path : string) (lflag : Z)
  : fs_world * (errno * vfs_lookup_res) :=
  match faults w with
  | true :: f => (set_faults f w, (EIO, no_result))
  | false :: f => ns_lookup (set_faults f w) base path lflag
  | [] => ns_lookup w base path lflag
  end.

Definition fs_link (w : fs_world) (base : vfs_triplet) (path : string) (child : vfs_triplet)
  : fs_world * errno :=
  match faults w with
  | true :: f => (set_faults f w, EIO)
  | false :: f => ns_link (set_faults f w) base path child
  | [] => ns_link w base path child
  end.

Definition fs_call (w : fs_world) (req : out_request) : fs_world * ipc_answer :=
  match answers w with
  | a :: l => (FsWorld (dentries w) (attrs w) (next_index w) (faults w) l, a)
  | [] => (w, Answer EOK EOK EOK 0 0 0)
  end.

#[global] Instance fs_backend : Backend fs_world := {
  vfs_lookup_internal := fs_lookup;
  vfs_link_internal := fs_link;
  backend_call := fs_call
}.

(** What a plain lookup of [path] from [base] yields in a world. *)
Definition ns_resolve (w : fs_world) (base : vfs_triplet) (path : string)
  : errno * vfs_lookup_res :=
  (ns_lookup w base path 0).2.

(** ** The statements of the specification *)

(** A flag word contains a flag. *)
Definition flag_set (flags f : Z) : Prop := Z.land flags f ≠ 0.

(** A flag word has a bit outside the defined walk flags. *)
Definition outside_walk_flags (flags : Z) : Prop :=
  exists i, 0 ≤ i /\ Z.testbit flags i = true /\ Z.testbit WALK_ALL_FLAGS i = false.

(** The walk flags the specification rejects: a bit outside the defined set,
    both create flags, both type flags, or a create flag without a type
    flag. *)
Definition spec_walk_flags_rejected (flags : Z) : Prop :=
  outside_walk_flags flags
  \/ (flag_set flags WALK_MAY_CREATE /\ flag_set flags WALK_MUST_CREATE)
  \/ (flag_set flags WALK_REGULAR /\ flag_set flags WALK_DIRECTORY)
  \/ ((flag_set flags WALK_MAY_CREATE \/ flag_set flags WALK_MUST_CREATE)
      /\ ~ flag_set flags WALK_DIRECTORY /\ ~ flag_set flags WALK_REGULAR).

(** The overflow test of a relative seek as the specification words it: the
    unsigned sum wraps, or the offset is negative and larger than the start. *)
Definition seek_overflows (start off : Z) : Prop :=
  (0 ≤ off /\ (start + off) mod UINT64_MOD < start) \/ (off < 0 /\ start < - off).

(** What an open mode asks for: reading, writing (appending is writing),
    appending. *)
Definition mode_read (mode : Z) : bool := cbool (Z.land mode MODE_READ).
Definition mode_write (mode : Z) : bool :=
  cbool (Z.land mode (Z.lor MODE_WRITE MODE_APPEND)).
Definition mode_append (mode : Z) : bool := cbool (Z.land mode MODE_APPEND).

(** The calls of the resolver among the events, and those of them that
    unlink the name they resolve. *)
Definition is_lookup (e : event) : bool :=
  match e with
  | EvLookup _ _ _ _ => true
  | _ => false
  end.

Definition is_unlinking_lookup (e : event) : bool :=
  match e with
  | EvLookup _ _ lflag _ => cbool (Z.land lflag L_UNLINK)
  | _ => false
  end.

(** The requests that take a mounted file system away. *)
Definition is_unmount_request (e : event) : bool :=
  match e with
  | EvOut (VFS_OUT_UNMOUNT _ _ _) => true
  | EvOut (VFS_OUT_UNMOUNTED _ _) => true
  | _ => false
  end.

(** Every cached node is referenced and lies below the next free address. *)
Definition nodes_wf {W : Type} (st : vfs_state W) : Prop :=
  forall p n, nodes st !! p = Some n -> (1 ≤ n_refcnt n)%nat /\ (p < next_node st)%nat.

(** The entries a walk looks at, up to the first one that is missing. *)
Fixpoint walk_keys (d : gmap (vfs_triplet * string) vfs_triplet) (cur : vfs_triplet)
    (names : list string) : list (vfs_triplet * string) :=
  match names with
  | [] => []
  | c :: cs =>
      (cur, c) :: match d !! (cur, c) with
                  | Some t => walk_keys d t cs
                  | None => []
                  end
  end.

(** No directory is reached from itself. *)
Definition ns_acyclic (d : gmap (vfs_triplet * string) vfs_triplet) : Prop :=
  forall t names, ns_walk d t names = Some t -> names = [].

(** Every [vfs_link_internal] that was to put a name back has succeeded. *)
Definition relinks_ok (evs : list event) : bool :=
  forallb (fun e => match e with
                    | EvRelink _ _ _ rc => is_EOK rc
                    | _ => true
                    end) evs.

(** The invariant behind [assert(read)]: cached nodes are referenced and lie
    below the next free address, and a descriptor that is open for writing
    points below that address and not at a cached directory. *)
Definition inv3 (ns : gmap nat vfs_node) (nx : nat) (fs : gmap nat vfs_file) : Prop :=
  (forall p n, ns !! p = Some n -> (1 ≤ n_refcnt n)%nat /\ (p < nx)%nat)
  /\ (forall fp f, fs !! fp = Some f -> f_open_write f = true ->
        (f_node f < nx)%nat
        /\ forall n, ns !! f_node f = Some n -> n_type n ≠ VFS_NODE_DIRECTORY).

Definition broker_inv {W : Type} (st : vfs_state W) : Prop :=
  inv3 (nodes st) (next_node st) (files st).

(** ** A scenario

    A root file system with the files /a and /b (10 bytes), the directory /d
    and the file /d/e, served by one backend; and the broker in some of the
    states it takes there. *)

Module Scenario.

Definition ROOT : vfs_triplet := Triplet 1 7 0.
Definition FILE_A : vfs_triplet := Triplet 1 7 1.
Definition FILE_B : vfs_triplet := Triplet 1 7 2.
Definition DIR_D : vfs_triplet := Triplet 1 7 3.
Definition FILE_E : vfs_triplet := Triplet 1 7 4.

Definition tmpfs : vfs_info := VfsInfo "tmpfs" 0 false false 1.

Definition tree : gmap (vfs_triplet * string) vfs_triplet :=
  <[(ROOT, "a") := FILE_A]>
    (<[(ROOT, "b") := FILE_B]>
       (<[(ROOT, "d") := DIR_D]> (<[(DIR_D, "e") := FILE_E]> ∅))).

Definition tree_attrs : gmap vfs_triplet (vfs_node_type * Z) :=
  <[ROOT := (VFS_NODE_DIRECTORY, 0)]>
    (<[FILE_A := (VFS_NODE_FILE, 3)]>
       (<[FILE_B := (VFS_NODE_FILE, 10)]>
          (<[DIR_D := (VFS_NODE_DIRECTORY, 0)]> (<[FILE_E := (VFS_NODE_FILE, 0)]> ∅)))).

Definition world_of (f : list bool) (ans : list ipc_answer) : fs_world :=
  FsWorld tree tree_attrs 5 f ans.

Definition canon (s : string) : option string := Some s.

Definition booted (f : list bool) : vfs_state fs_world :=
  initial_state (world_of f []) [tmpfs].

Definition run (rid : Z) (req : request) (r : result (vfs_state fs_world))
  : result (vfs_state fs_world) :=
  st ← r; dispatch canon rid req st.

Definition mount_root : request :=
  VFS_IN_MOUNT 7 0 0 (EOK, "/") (EOK, "") (EOK, "tmpfs") true 100.

Definition session (f : list bool) (reqs : list request) : result (vfs_state fs_world) :=
  foldl (fun r req => run 1 req r) (Done (booted f)) reqs.

Definition state_of (r : result (vfs_state fs_world)) : vfs_state fs_world :=
  match r with
  | Done st => st
  | Abort _ => booted []
  end.

(** The root is mounted. *)
Definition mounted (f : list bool) : vfs_state fs_world :=
  Eval vm_compute in state_of (session f [mount_root]).

(** The root is mounted and descriptor 0 is a walk to the root directory. *)
Definition walked_root : vfs_state fs_world :=
  Eval vm_compute in
    state_of (session [] [mount_root; VFS_IN_WALK (-1) 0 (EOK, "/")]).

(** The root is mounted and descriptor 0 is a walk to the directory /d. *)
Definition walked_dir : vfs_state fs_world :=
  Eval vm_compute in
    state_of (session [] [mount_root; VFS_IN_WALK (-1) 0 (EOK, "/d")]).

(** The root is mounted, descriptor 0 is the file /b (10 bytes), open for
    reading, and descriptor 1 is a walk to the file /a. *)
Definition opened_file : vfs_state fs_world :=
  Eval vm_compute in
    state_of (session [] [mount_root; VFS_IN_WALK (-1) 0 (EOK, "/b");
                          VFS_IN_OPEN2 0 MODE_READ;
                          VFS_IN_WALK (-1) 0 (EOK, "/a")]).


(** [vfs_rename_internal] from the root, on the mounted tree. *)
Definition rename_result (f : list bool) (old new : string) : errno * vfs_state fs_world :=
  match vfs_rename_internal ROOT old new (mounted f) with
  | Done r => r
  | Abort _ => (EIO, mounted f)
  end.

(** After a rename of /a to /b that went through. *)
Definition renamed : vfs_state fs_world :=
  Eval vm_compute in (rename_result [] "/a" "/b").2.

(** After a rename of /a to /b whose link failed and whose compensating
    links went through. *)
Definition rolled_back : vfs_state fs_world :=
  Eval vm_compute in (rename_result [false; false; true] "/a" "/b").2.

(** After a rename of /a to /b whose link and compensating links failed. *)
Definition half_done : vfs_state fs_world :=
  Eval vm_compute in (rename_result [false; false; true; true; true] "/a" "/b").2.

End Scenario.



Import Scenario.

(** * Properties *)

(** ** Arithmetic of the 64-bit positions *)

Lemma to_aoff64_small x : 0 ≤ x < UINT64_MOD -> to_aoff64 x = x.
Proof. intros Hx. unfold to_aoff64. apply Z.mod_small. exact Hx. Qed.

Lemma to_aoff64_range x : 0 ≤ to_aoff64 x < UINT64_MOD.
Proof. unfold to_aoff64. apply Z.mod_pos_bound. reflexivity. Qed.

Lemma to_off64_range x : OFF64_MIN ≤ to_off64 x ≤ OFF64_MAX.
Proof.
  unfold to_off64, OFF64_MIN, OFF64_MAX.
  pose proof (Z.mod_pos_bound x UINT64_MOD eq_refl) as Hb.
  unfold UINT64_MOD in *.
  destruct (Z.ltb_spec (x mod 2 ^ 64) (2 ^ 63)); lia.
Qed.

Lemma to_off64_small x : 0 ≤ x ≤ OFF64_MAX -> to_off64 x = x.
Proof.
  unfold to_off64, OFF64_MAX, UINT64_MOD. intros Hx.
  rewrite Z.mod_small by lia.
  destruct (Z.ltb_spec x (2 ^ 63)); lia.
Qed.

Lemma ones32 : 4294967295 = Z.ones 32.
Proof. reflexivity. Qed.

Lemma testbit_above x n : 0 ≤ x < 2 ^ n -> forall i, n ≤ i -> Z.testbit x i = false.
Proof.
  intros Hx i Hi.
  destruct (decide (x = 0)) as [->|Hne]; [apply Z.bits_0|].
  apply Z.bits_above_log2; [lia|].
  assert (Z.log2 x < n); [|lia].
  apply Z.log2_lt_pow2; lia.
Qed.

Lemma land_ones32_range y : 0 ≤ Z.land y 4294967295 < 4294967296.
Proof.
  rewrite ones32, Z.land_ones by lia.
  change 4294967296 with (2 ^ 32). apply Z.mod_pos_bound. lia.
Qed.

Lemma to_aoff64_word y : to_aoff64 (Z.land y 4294967295) = Z.land y 4294967295.
Proof.
  apply to_aoff64_small. pose proof (land_ones32_range y).
  unfold UINT64_MOD. change (2 ^ 64) with 18446744073709551616. lia.
Qed.

(** Splitting a 64-bit value into two words and merging them gives the
    value back. *)
Lemma merge_split x : 0 ≤ x < UINT64_MOD -> MERGE_LOUP32 (LOWER32 x) (UPPER32 x) = x.
Proof.
  intros Hx. unfold MERGE_LOUP32, LOWER32, UPPER32.
  rewrite (to_aoff64_small x) by exact Hx.
  rewrite !to_aoff64_word.
  rewrite to_aoff64_small.
  2:{ rewrite Z.shiftl_mul_pow2 by lia.
      pose proof (land_ones32_range (Z.land (Z.shiftr x 32) 4294967295)).
      unfold UINT64_MOD. change (2 ^ 32) with 4294967296.
      change (2 ^ 64) with 18446744073709551616. lia. }
  apply Z.bits_inj'. intros i Hi.
  rewrite Z.lor_spec, !Z.land_spec.
  rewrite !ones32.
  destruct (Z.lt_ge_cases i 32) as [Hlt|Hge].
  - rewrite Z.shiftl_spec_low by lia.
    rewrite Z.ones_spec_low by lia.
    rewrite !andb_true_r, orb_false_r. reflexivity.
  - rewrite Z.ones_spec_high by lia.
    rewrite !andb_false_r, orb_false_l.
    rewrite Z.shiftl_spec by lia.
    rewrite !Z.land_spec, Z.shiftr_spec by lia.
    replace (i - 32 + 32) with i by lia.
    destruct (Z.lt_ge_cases i 64) as [Hlt|Hge'].
    + rewrite Z.ones_spec_low by lia. rewrite !andb_true_r. reflexivity.
    + rewrite Z.ones_spec_high by lia. rewrite !andb_false_r.
      symmetry. apply (testbit_above x 64); unfold UINT64_MOD in Hx; lia.
Qed.

(** ** Bits of a flag word *)

Lemma land_zero_bits a b :
  Z.land a b = 0 <-> (forall i, 0 ≤ i -> Z.testbit a i && Z.testbit b i = false).
Proof.
  split.
  - intros H0 i Hi. rewrite <- Z.land_spec, H0. apply Z.bits_0.
  - intros Hb. apply Z.bits_inj'. intros i Hi.
    rewrite Z.land_spec, Z.bits_0. apply Hb, Hi.
Qed.

Lemma cbool_true x : cbool x = true <-> x ≠ 0.
Proof. unfold cbool. destruct (Z.eqb_spec x 0); split; intros; try done. Qed.

Lemma cbool_false x : cbool x = false <-> x = 0.
Proof. unfold cbool. destruct (Z.eqb_spec x 0); split; intros; try done. Qed.

Lemma outside_walk_flags_land flags :
  outside_walk_flags flags <-> Z.land flags (Z.lnot WALK_ALL_FLAGS) ≠ 0.
Proof.
  unfold outside_walk_flags. change WALK_ALL_FLAGS with 15. split.
  - intros (i & Hi & Hf & Ha) H0.
    pose proof (proj1 (land_zero_bits _ _) H0 i Hi) as Hb.
    rewrite Z.lnot_spec, Hf, Ha in Hb by exact Hi. discriminate.
  - intros Hne.
    destruct (Z.lt_ge_cases flags 0) as [Hneg|Hpos].
    + exists (Z.max 4 (Z.log2 (Z.pred (- flags)) + 1)). split; [lia|]. split.
      * apply Z.bits_above_log2_neg; lia.
      * apply (testbit_above 15 4); lia.
    + assert (16 ≤ flags) as Hbig.
      { destruct (Z.lt_ge_cases flags 16) as [Hlt|]; [|assumption].
        exfalso. apply Hne. apply land_zero_bits. intros i Hi.
        destruct (Z.lt_ge_cases i 4).
        - rewrite Z.lnot_spec by exact Hi.
          assert (Z.testbit 15 i = true) as ->; [|apply andb_false_r].
          assert (i = 0 \/ i = 1 \/ i = 2 \/ i = 3) as [->|[->|[->| ->]]] by lia;
            reflexivity.
        - rewrite (testbit_above flags 4) by (change (2 ^ 4) with 16; lia).
          reflexivity. }
      exists (Z.log2 flags). split; [apply Z.log2_nonneg|]. split.
      * apply Z.bit_log2. lia.
      * apply (testbit_above 15 4); [lia|].
        change 4 with (Z.log2 16). apply Z.log2_le_mono. lia.
Qed.

(** The early returns of [walk_flags_valid] are the cases the specification
    lists. *)
Lemma walk_flags_valid_false flags :
  walk_flags_valid flags = false <-> spec_walk_flags_rejected flags.
Proof.
  unfold spec_walk_flags_rejected, walk_flags_valid, flag_set, cbool.
  rewrite outside_walk_flags_land.
  destruct (Z.eqb_spec (Z.land flags (Z.lnot WALK_ALL_FLAGS)) 0);
    destruct (Z.eqb_spec (Z.land flags WALK_MAY_CREATE) 0);
    destruct (Z.eqb_spec (Z.land flags WALK_MUST_CREATE) 0);
    destruct (Z.eqb_spec (Z.land flags WALK_REGULAR) 0);
    destruct (Z.eqb_spec (Z.land flags WALK_DIRECTORY) 0);
    simpl; intuition congruence.
Qed.

Section BrokerProperties.
Context {W : Type} `{!Backend W}.

(** ** Walk: validation of the flags *)

(** C3: a walk-flags word that has a bit outside the defined set, or both
    create flags, or both type flags, or a create flag without a type flag, is
    refused by [walk_flags_valid], and [vfs_walk] then only answers [EINVAL]:
    the resulting state is the old one with that answer appended to the log,
    so no lookup and no backend request was made; every other flag word
    passes the validation. *)
Theorem walk_flags_validated (flags : Z) :
  (spec_walk_flags_rejected flags ->
     walk_flags_valid flags = false
     /\ forall (st : vfs_state W) rid parentfd path,
          vfs_walk rid parentfd flags path st = Done (answer rid EINVAL [] st)
          /\ world (answer rid EINVAL [] st) = world st
          /\ log (answer rid EINVAL [] st) = (log st ++ [EvAnswer rid EINVAL []])%list)
  /\ (~ spec_walk_flags_rejected flags -> walk_flags_valid flags = true).
Proof.
  split.
  - intros Hrej. apply walk_flags_valid_false in Hrej. split; [exact Hrej|].
    intros st rid parentfd path. unfold vfs_walk. rewrite Hrej. simpl. done.
  - intros Hok. destruct (walk_flags_valid flags) eqn:Hv; [reflexivity|].
    exfalso. apply Hok, walk_flags_valid_false, Hv.
Qed.

(** ** Dup of a descriptor onto itself *)

(** C10: [dup] with equal descriptors answers [EOK] with the descriptor and
    changes nothing else, whether or not the descriptor is allocated. *)
Theorem vfs_dup_same_fd (st : vfs_state W) (rid fd : Z) :
  vfs_dup rid fd fd st = Done (answer rid EOK [fd] st)
  /\ log (answer rid EOK [fd] st) = (log st ++ [EvAnswer rid EOK [fd]])%list
  /\ world (answer rid EOK [fd] st) = world st
  /\ nodes (answer rid EOK [fd] st) = nodes st
  /\ files (answer rid EOK [fd] st) = files st
  /\ fds (answer rid EOK [fd] st) = fds st
  /\ root (answer rid EOK [fd] st) = root st
  /\ mtab_list (answer rid EOK [fd] st) = mtab_list st.
Proof.
  unfold vfs_dup. rewrite bool_decide_eq_true_2 by reflexivity. done.
Qed.

(** The descriptor table is consulted only for two different descriptors:
    then an old descriptor that is not allocated gives [EBADF]. *)
Lemma vfs_dup_ebadf (st : vfs_state W) (rid oldfd newfd : Z) :
  oldfd ≠ newfd -> vfs_file_get oldfd st = None ->
  vfs_dup rid oldfd newfd st = Done (answer rid EBADF [] st).
Proof.
  intros Hne Hget. unfold vfs_dup.
  rewrite bool_decide_eq_false_2 by exact Hne. rewrite Hget. reflexivity.
Qed.

End BrokerProperties.

(** ** Seek *)

Lemma seek_overflows_exact start off :
  0 ≤ start < UINT64_MOD -> OFF64_MIN ≤ off ≤ OFF64_MAX ->
  seek_overflows start off <-> ~ (0 ≤ start + off < UINT64_MOD).
Proof.
  unfold seek_overflows, UINT64_MOD, OFF64_MIN, OFF64_MAX.
  change (2 ^ 64) with 18446744073709551616.
  change (2 ^ 63) with 9223372036854775808.
  intros Hs Ho. Z.div_mod_to_equations. lia.
Qed.

Lemma seek_test_forward start off :
  0 ≤ start < UINT64_MOD -> OFF64_MIN ≤ off ≤ OFF64_MAX ->
  bool_decide (0 ≤ off) && bool_decide (to_aoff64 (start + to_aoff64 off) < start) = true
  <-> 0 ≤ off /\ (start + off) mod UINT64_MOD < start.
Proof.
  intros Hs Ho. rewrite andb_true_iff, !bool_decide_eq_true.
  split; intros [H0 Hlt]; (split; [exact H0|]).
  - rewrite (to_aoff64_small off) in Hlt; [exact Hlt|].
    unfold OFF64_MAX, UINT64_MOD in *. lia.
  - rewrite (to_aoff64_small off); [exact Hlt|].
    unfold OFF64_MAX, UINT64_MOD in *. lia.
Qed.

Lemma seek_test_backward start off :
  OFF64_MIN ≤ off ≤ OFF64_MAX ->
  bool_decide (off < 0) && bool_decide (start < to_aoff64 (- off)) = true
  <-> off < 0 /\ start < - off.
Proof.
  intros Ho. rewrite andb_true_iff, !bool_decide_eq_true.
  split; intros [H0 Hlt]; (split; [exact H0|]).
  - rewrite to_aoff64_small in Hlt; [exact Hlt|].
    unfold OFF64_MIN, UINT64_MOD in *. lia.
  - rewrite to_aoff64_small; [exact Hlt|].
    unfold OFF64_MIN, UINT64_MOD in *. lia.
Qed.

Section SeekProperties.
Context {W : Type} `{!Backend W}.

Lemma vfs_file_get_Some (st : vfs_state W) fd p f :
  vfs_file_get fd st = Some (p, f) <-> fds st !! fd = Some p /\ files st !! p = Some f.
Proof.
  unfold vfs_file_get. split.
  - intros Hget. destruct (fds st !! fd) as [q|]; [|discriminate]. simpl in Hget.
    destruct (files st !! q) as [g|] eqn:Hq; [|discriminate]. simpl in Hget.
    inversion Hget; subst. done.
  - intros [-> Hf]. simpl. rewrite Hf. reflexivity.
Qed.

Lemma vfs_file_get_set_file (st : vfs_state W) fd p f f' :
  vfs_file_get fd st = Some (p, f) ->
  vfs_file_get fd (set_file p f' st) = Some (p, f').
Proof.
  intros [Hfd _]%vfs_file_get_Some. apply vfs_file_get_Some. split; [exact Hfd|].
  simpl. apply lookup_insert_eq.
Qed.

Lemma Done_inj {A : Type} (a b : A) : Done a = Done b -> a = b.
Proof. intros Heq. congruence. Qed.

Lemma answer_neq (st st' : vfs_state W) rid rc rc' args args' :
  rc ≠ rc' -> answer rid rc args st ≠ answer rid rc' args' st'.
Proof.
  intros Hne Heq. apply (f_equal log) in Heq. simpl in Heq.
  apply (f_equal (@rev event)) in Heq. rewrite !rev_app_distr in Heq. simpl in Heq.
  congruence.
Qed.

(** C5: [SEEK_SET] to a non-negative offset [k] followed by [SEEK_CUR] by 0
    on the same descriptor: both succeed, and the two words of the second
    answer merge to [min k OFF64_MAX]. *)
Theorem seek_set_then_cur (st : vfs_state W) (rid1 rid2 fd arg2 arg3 : Z) p f :
  vfs_file_get fd st = Some (p, f) ->
  0 ≤ to_off64 (MERGE_LOUP32 arg2 arg3) ->
  exists st1 st2 lo hi,
    vfs_seek rid1 fd arg2 arg3 SEEK_SET st = Done st1
    /\ log st1 = (log st ++ [EvAnswer rid1 EOK [to_off64 (MERGE_LOUP32 arg2 arg3)]])%list
    /\ vfs_seek rid2 fd 0 0 SEEK_CUR st1 = Done st2
    /\ log st2 = (log st1 ++ [EvAnswer rid2 EOK [lo; hi]])%list
    /\ MERGE_LOUP32 lo hi = Z.min (to_off64 (MERGE_LOUP32 arg2 arg3)) OFF64_MAX.
Proof.
  intros Hget Hk.
  set (k := to_off64 (MERGE_LOUP32 arg2 arg3)) in *.
  pose proof (to_off64_range (MERGE_LOUP32 arg2 arg3)) as Hr. fold k in Hr.
  assert (Hk64 : 0 ≤ k < UINT64_MOD).
  { unfold OFF64_MAX, UINT64_MOD in *. lia. }
  eexists _, _, (LOWER32 k), (UPPER32 k).
  split.
  { unfold vfs_seek. rewrite Hget. fold k.
    rewrite (bool_decide_eq_true_2 (SEEK_SET = SEEK_SET)) by reflexivity.
    rewrite bool_decide_eq_true_2 by exact Hk. reflexivity. }
  split; [reflexivity|].
  assert (Hcur : to_off64 (MERGE_LOUP32 0 0) = 0) by reflexivity.
  split.
  { unfold vfs_seek. rewrite Hcur.
    change (vfs_file_get fd (answer rid1 EOK [k] ?s)) with (vfs_file_get fd s).
    rewrite (vfs_file_get_set_file _ _ _ _ _ Hget).
    rewrite (bool_decide_eq_false_2 (SEEK_CUR = SEEK_SET)) by discriminate.
    rewrite (bool_decide_eq_true_2 (SEEK_CUR = SEEK_CUR)) by reflexivity.
    cbn [f_pos file_set_pos].
    change (to_aoff64 0) with 0. rewrite Z.add_0_r.
    rewrite !(to_aoff64_small k) by exact Hk64.
    rewrite (bool_decide_eq_false_2 (k < k)) by lia.
    rewrite andb_false_r.
    rewrite (bool_decide_eq_false_2 (0 < 0)) by lia. rewrite andb_false_l.
    rewrite (bool_decide_eq_false_2 (OFF64_MAX < k)) by lia.
    reflexivity. }
  split; [reflexivity|].
  rewrite merge_split by exact Hk64. lia.
Qed.


End SeekProperties.

(** ** Open *)

Section OpenProperties.
Context {W : Type} `{!Backend W}.

(** C4, as the code has it: for a descriptor that is not open and whose node
    is cached, [open] answers once; the answer is [EPERM] when the mode has a
    bit outside the permissions, [EINVAL] when the mode is within the
    permissions and asks for neither reading nor writing, [EINVAL] when it is
    within the permissions and asks for writing on a directory; after every
    answer other than [EOK] the descriptor has [open_read] and [open_write]
    false, and after [EOK] they and the append flag are what the mode asks
    for. *)
Theorem vfs_open2_checked (st : vfs_state W) (rid fd mode : Z) p f n :
  vfs_file_get fd st = Some (p, f) ->
  nodes st !! f_node f = Some n ->
  f_open_read f = false -> f_open_write f = false ->
  exists st' rc f',
    vfs_open2 rid fd mode st = Done st'
    /\ last (log st') = Some (EvAnswer rid rc [])
    /\ vfs_file_get fd st' = Some (p, f')
    /\ (Z.land mode (Z.lnot (f_permissions f)) ≠ 0 -> rc = EPERM)
    /\ (Z.land mode (Z.lnot (f_permissions f)) = 0 ->
        mode_read mode = false -> mode_write mode = false -> rc = EINVAL)
    /\ (Z.land mode (Z.lnot (f_permissions f)) = 0 ->
        mode_write mode = true -> n_type n = VFS_NODE_DIRECTORY -> rc = EINVAL)
    /\ (rc ≠ EOK -> f_open_read f' = false /\ f_open_write f' = false)
    /\ (rc = EOK ->
        f_open_read f' = mode_read mode /\ f_open_write f' = mode_write mode
        /\ f_append f' = mode_append mode).
Proof.
  intros Hget Hn Hr Hw. unfold vfs_open2.
  pose proof (proj1 (vfs_file_get_Some _ _ _ _) Hget) as [Hfd _].
  assert (Hfile : forall (s : vfs_state W) g,
            fds s = fds st -> files s !! p = Some g -> vfs_file_get fd s = Some (p, g)).
  { intros s g Hs Hg. apply vfs_file_get_Some. rewrite Hs. done. }
  destruct (bool_decide (mode = 0)) eqn:E0.
  { apply bool_decide_eq_true in E0. subst mode.
    exists (answer rid EINVAL [] st), EINVAL, f.
    split; [reflexivity|]. split; [apply last_snoc|]. split; [exact Hget|].
    rewrite Z.land_0_l. repeat split; intros; congruence. }
  rewrite Hget.
  destruct (cbool (Z.land mode (Z.lnot (f_permissions f)))) eqn:Ep.
  { apply cbool_true in Ep.
    exists (answer rid EPERM [] st), EPERM, f.
    split; [reflexivity|]. split; [apply last_snoc|]. split; [exact Hget|].
    repeat split; intros; congruence. }
  apply cbool_false in Ep.
  fold (mode_read mode) (mode_write mode) (mode_append mode).
  cbn [f_open_read f_open_write file_set_open].
  destruct (mode_read mode) eqn:Erd, (mode_write mode) eqn:Ewr; cbn [negb andb].
  4:{ eexists _, EINVAL, _.
      split; [reflexivity|]. split; [apply last_snoc|].
      split; [apply Hfile; [reflexivity|apply lookup_insert_eq]|].
      repeat split; intros; cbn in *; congruence. }
  all: unfold node_at; cbn [nodes set_file set_files f_node file_set_open];
    rewrite Hn; cbn [mbind result_bind];
    destruct (bool_decide (n_type n = VFS_NODE_DIRECTORY)) eqn:Ed; cbn [andb].
  all: try (eexists _, EINVAL, _;
      split; [reflexivity|]; split; [apply last_snoc|];
      split; [apply Hfile; [reflexivity|apply lookup_insert_eq]|];
      repeat split; intros; cbn in *; congruence).
  all: unfold vfs_open_node_remote, do_call;
    cbn [world set_file set_files];
    destruct (backend_call _ _) as [w a];
    destruct (is_EOK (a_rc a)) eqn:Erc; cbn [negb];
    [ apply bool_decide_eq_true in Erc; eexists _, EOK, _
    | apply bool_decide_eq_false in Erc; eexists _, (a_rc a), _ ];
    (split; [reflexivity|]); (split; [apply last_snoc|]).
  all: try apply bool_decide_eq_false in Ed.
  all: split;
    [ apply Hfile; [reflexivity|apply lookup_insert_eq]
    | repeat split; intros; cbn in *; try congruence; try reflexivity ].
Qed.

End OpenProperties.

(** ** Unlink with an expected descriptor *)

Section UnlinkProperties.
Context {W : Type} `{!Backend W}.

Lemma vfs_node_get_Some (lr : vfs_lookup_res) (st : vfs_state W) :
  exists p n,
    (vfs_node_get lr st).1 = Some p
    /\ nodes (vfs_node_get lr st).2 !! p = Some n
    /\ n_triplet n = lr_triplet lr
    /\ log (vfs_node_get lr st).2 = log st
    /\ world (vfs_node_get lr st).2 = world st.
Proof.
  unfold vfs_node_get, node_find.
  destruct (head _) as [[p n]|] eqn:Hh; simpl.
  - apply head_Some_elem_of, list_elem_of_filter in Hh as [Ht Hin].
    apply elem_of_map_to_list in Hin. simpl in Ht.
    exists p, (node_addref n). split; [reflexivity|]. split.
    + rewrite lookup_alter_eq, Hin. reflexivity.
    + done.
  - eexists _, _. split; [reflexivity|]. split; [apply lookup_insert_eq|]. done.
Qed.

Lemma vfs_node_put_Done (p : nat) (st : vfs_state W) n :
  nodes st !! p = Some n ->
  exists st', vfs_node_put p st = Done st'
    /\ exists evs, log st' = (log st ++ evs)%list
         /\ forallb (fun e => negb (is_unmount_request e)) evs = true.
Proof.
  intros Hn. unfold vfs_node_put, node_at. rewrite Hn. cbn [mbind result_bind].
  destruct (bool_decide _).
  - unfold do_call. cbn [world set_nodes]. destruct (backend_call _ _) as [w a].
    eexists. split; [reflexivity|]. eexists [_]. split; [reflexivity|]. reflexivity.
  - eexists. split; [reflexivity|]. exists []. split; [|reflexivity].
    simpl. rewrite app_nil_r. reflexivity.
Qed.

Lemma do_lookup_eq base path lflag (st : vfs_state W) w rc lr :
  vfs_lookup_internal (world st) base path lflag = (w, (rc, lr)) ->
  do_lookup base path lflag st
  = ((rc, lr), set_log (log st ++ [EvLookup base path lflag rc]) (set_world w st)).
Proof. intros Hlk. unfold do_lookup. rewrite Hlk. reflexivity. Qed.

Lemma node_at_Some p (st : vfs_state W) n :
  nodes st !! p = Some n -> node_at p st = Done n.
Proof. intros Hn. unfold node_at. rewrite Hn. reflexivity. Qed.

Lemma base_of_Some p (st : vfs_state W) n :
  nodes st !! p = Some n -> base_of (Some p) st = Done (n_triplet n).
Proof. intros Hn. unfold base_of, node_at. rewrite Hn. reflexivity. Qed.

Lemma vfs_node_put_quiet (p : nat) (st : vfs_state W) n :
  nodes st !! p = Some n ->
  exists st', vfs_node_put p st = Done st'
    /\ exists evs, log st' = (log st ++ evs)%list
         /\ forallb (fun e => negb (is_lookup e)) evs = true.
Proof.
  intros Hn. unfold vfs_node_put, node_at. rewrite Hn. cbn [mbind result_bind].
  destruct (bool_decide _).
  - unfold do_call. cbn [world set_nodes]. destruct (backend_call _ _) as [w a].
    eexists. split; [reflexivity|]. eexists [_]. split; [reflexivity|]. reflexivity.
  - eexists. split; [reflexivity|]. exists []. split; [|reflexivity].
    simpl. rewrite app_nil_r. reflexivity.
Qed.

Lemma triplet_bytes_differ_false pad_equal a b :
  triplet_bytes_differ pad_equal a b = false <-> a = b /\ pad_equal = true.
Proof.
  unfold triplet_bytes_differ. rewrite negb_false_iff, andb_true_iff, bool_decide_eq_true.
  reflexivity.
Qed.


End UnlinkProperties.

(** ** The prefix test of rename *)

Section RenamePrefix.
Context {W : Type} `{!Backend W}.

(** Whatever the backend: a rename of "/a" to "/a/b" is not refused by the
    prefix test, the first thing it does is to ask the resolver to unlink
    "/a/b". *)
Lemma rename_prefix_reaches_resolver (st : vfs_state W) (base : vfs_triplet) :
  exists rc st' evs,
    vfs_rename_internal base "/a" "/a/b" st = Done (rc, st')
    /\ log st' =
       (log st
          ++ EvLookup base "/a/b" (Z.lor L_UNLINK L_DISABLE_MOUNTS)
               (vfs_lookup_internal (world st) base "/a/b"
                  (Z.lor L_UNLINK L_DISABLE_MOUNTS)).2.1
          :: evs)%list.
Proof.
  unfold vfs_rename_internal.
  change (shared_path "/a" "/a/b") with (Some 0%nat). cbv iota.
  change (strget "/a" 0) with SLASH. change (strget "/a/b" 0) with SLASH.
  rewrite (bool_decide_eq_false_2 (SLASH = NUL)) by discriminate.
  rewrite (bool_decide_eq_true_2 (SLASH = SLASH)) by reflexivity.
  rewrite (bool_decide_eq_true_2 (0%nat = 0%nat)) by reflexivity.
  cbn [orb negb].
  unfold vfs_rename_steps, do_lookup, do_link, do_relink.
  destruct (vfs_lookup_internal (world st) base "/a/b" _) as [w1 [rc1 lr1]].
  cbn [fst snd world set_log set_world log].
  destruct (negb (is_EOK rc1) && _); [eexists _, _, []; done|].
  destruct (vfs_lookup_internal w1 base "/a" _) as [w2 [rc2 lr2]].
  cbn [fst snd world set_log set_world log].
  destruct (is_EOK rc2); cbn [negb].
  2:{ destruct (is_EOK rc1).
      - destruct (vfs_link_internal w2 _ _ _) as [w3 rc3].
        eexists _, _, [_; _]. cbn. rewrite <- !app_assoc. done.
      - eexists _, _, [_]. cbn. rewrite <- !app_assoc. done. }
  destruct (vfs_link_internal w2 _ _ _) as [w3 rc3].
  cbn [fst snd world set_log set_world log].
  destruct (is_EOK rc3); cbn [negb].
  2:{ destruct (vfs_link_internal w3 _ _ _) as [w4 rc4].
      cbn [fst snd world set_log set_world log].
      destruct (is_EOK rc1).
      - destruct (vfs_link_internal w4 _ _ _) as [w5 rc5].
        eexists _, _, [_; _; _; _]. cbn. rewrite <- !app_assoc. done.
      - eexists _, _, [_; _; _]. cbn. rewrite <- !app_assoc. done. }
  destruct (is_EOK rc1).
  - set (st3 := set_log _ _).
    destruct (vfs_node_get_Some lr1 st3) as (q & qn & Hq & Hqn & _ & Hlogq & _).
    destruct (vfs_node_get lr1 st3) as [r st4]. cbn [fst snd] in *. subst r.
    destruct (vfs_node_put_Done q st4 qn Hqn) as (st5 & Hput & evs & Hevs & _).
    rewrite Hput. cbn [mbind result_bind].
    eexists _, _, (_ :: _ :: evs). split; [reflexivity|].
    rewrite Hevs, Hlogq. subst st3. cbn. rewrite <- !app_assoc. done.
  - eexists _, _, [_; _]. cbn. rewrite <- !app_assoc. done.
Qed.

End RenamePrefix.

(** ** Unmount of a file system in use *)

Section UnmountProperties.
Context {W : Type} `{!Backend W}.

Lemma vfs_node_get_frame (lr : vfs_lookup_res) (st : vfs_state W) w l :
  vfs_node_get lr (set_log l (set_world w st))
  = ((vfs_node_get lr st).1, set_log l (set_world w (vfs_node_get lr st).2)).
Proof.
  unfold vfs_node_get. cbn [nodes set_log set_world].
  destruct (node_find (nodes st) (lr_triplet lr)); reflexivity.
Qed.

Lemma node_delref_addref n : node_delref (node_addref n) = n.
Proof. destruct n; reflexivity. Qed.

(** Taking a reference on a node and giving it back leaves the cache as it
    was; the backend hears of it only if the node was not cached before. *)
Lemma vfs_node_get_put (lr : vfs_lookup_res) (st : vfs_state W) :
  nodes_wf st ->
  exists p n st',
    (vfs_node_get lr st).1 = Some p
    /\ nodes (vfs_node_get lr st).2 !! p = Some n
    /\ n_triplet n = lr_triplet lr
    /\ vfs_node_put p (vfs_node_get lr st).2 = Done st'
    /\ nodes st' = nodes st
    /\ root st' = root st /\ mtab_list st' = mtab_list st /\ mtab_size st' = mtab_size st
    /\ files st' = files st /\ fds st' = fds st
    /\ exists evs, log st' = (log st ++ evs)%list
         /\ forallb (fun e => negb (is_unmount_request e)) evs = true.
Proof.
  intros Hwf. unfold vfs_node_get, node_find.
  destruct (head _) as [[p n]|] eqn:Hh; cbn [fst snd fmap option_fmap option_map].
  - apply head_Some_elem_of, list_elem_of_filter in Hh as [Ht Hin].
    apply elem_of_map_to_list in Hin. simpl in Ht.
    destruct (Hwf p n Hin) as [Href _].
    exists p, (node_addref n).
    unfold vfs_node_put, node_at. cbn [nodes set_nodes].
    rewrite lookup_alter_eq, Hin. cbn [fmap option_fmap option_map mbind result_bind].
    rewrite bool_decide_eq_false_2 by (simpl; lia).
    eexists. split; [reflexivity|]. split; [reflexivity|]. split; [exact Ht|].
    split; [reflexivity|]. cbn. split.
    { rewrite node_delref_addref. apply map_eq. intros q.
      destruct (decide (p = q)) as [->|Hne].
      - rewrite lookup_insert_eq. symmetry. exact Hin.
      - rewrite lookup_insert_ne, lookup_alter_ne by exact Hne. reflexivity. }
    repeat (split; [reflexivity|]).
    exists []. rewrite app_nil_r. done.
  - assert (Hfresh : nodes st !! next_node st = None).
    { destruct (nodes st !! next_node st) as [n|] eqn:Hn; [|reflexivity].
      destruct (Hwf _ _ Hn). lia. }
    exists (next_node st), (Node (lr_triplet lr) (lr_type lr) (lr_size lr) 1).
    unfold vfs_node_put, node_at. cbn [nodes set_nodes set_next_node].
    rewrite lookup_insert_eq. cbn [mbind result_bind n_refcnt].
    rewrite bool_decide_eq_true_2 by lia.
    unfold do_call. cbn [world set_nodes set_next_node].
    destruct (backend_call _ _) as [w a]. cbn [snd].
    eexists. split; [reflexivity|]. split; [reflexivity|]. split; [reflexivity|].
    split; [reflexivity|]. cbn. split.
    { apply delete_insert_id. exact Hfresh. }
    repeat (split; [reflexivity|]).
    eexists [_]. done.
Qed.

(** C7: when the references on the nodes of the file system that [mp]
    resolves into add up to more than 2 at the check, that is with the
    reference the check itself has just taken, [unmount] answers [EBUSY], has
    sent neither [UNMOUNT] nor [UNMOUNTED], and leaves the mount table, the
    root and the cached nodes as they were. *)
Theorem vfs_unmount_busy (st : vfs_state W) (rid : Z) (mp : string) rootp rn w1 mr_res :
  nodes_wf st ->
  root st = Some rootp ->
  nodes st !! rootp = Some rn ->
  vfs_lookup_internal (world st) (n_triplet rn) mp 0 = (w1, (EOK, mr_res)) ->
  (2 < vfs_nodes_refcount_sum_get (fs_handle (lr_triplet mr_res))
         (service_id (lr_triplet mr_res)) (vfs_node_get mr_res st).2)%nat ->
  exists st' evs,
    vfs_unmount rid (EOK, mp) st = Done st'
    /\ log st' = (log st ++ evs ++ [EvAnswer rid EBUSY []])%list
    /\ forallb (fun e => negb (is_unmount_request e)) evs = true
    /\ mtab_list st' = mtab_list st /\ mtab_size st' = mtab_size st
    /\ root st' = root st
    /\ nodes st' = nodes st.
Proof.
  intros Hwf Hroot Hrn Hlk Hsum.
  unfold vfs_unmount. cbn [fst snd]. change (is_EOK EOK) with true. cbn [negb].
  rewrite Hroot. rewrite (base_of_Some _ _ _ Hrn).
  cbn [mbind result_bind].
  rewrite (do_lookup_eq _ _ _ _ _ _ _ Hlk). cbn [fst snd].
  change (is_EOK EOK) with true. cbn [negb].
  set (st_l := set_log _ (set_world w1 st)).
  assert (Hwf' : nodes_wf st_l) by exact Hwf.
  assert (Hsum' : (2 < vfs_nodes_refcount_sum_get (fs_handle (lr_triplet mr_res))
                        (service_id (lr_triplet mr_res)) (vfs_node_get mr_res st_l).2)%nat).
  { subst st_l. rewrite vfs_node_get_frame. exact Hsum. }
  destruct (vfs_node_get_put mr_res st_l Hwf')
    as (p & n & st2 & Hp & Hn & Htrip & Hput & Hnodes & Hr & Hm & Hms & _ & _
        & evs & Hlog & Hevs).
  destruct (vfs_node_get mr_res st_l) as [r st1]. cbn [fst snd] in *. subst r.
  rewrite (node_at_Some _ _ _ Hn). cbn [mbind result_bind]. rewrite Htrip.
  rewrite bool_decide_eq_false_2 by lia. cbn [negb].
  rewrite Hput. cbn [mbind result_bind].
  exists (answer rid EBUSY [] st2), (EvLookup (n_triplet rn) mp 0 EOK :: evs).
  split; [reflexivity|]. cbn [log answer set_log].
  rewrite Hlog. subst st_l. cbn [log set_log].
  split; [rewrite <- !app_assoc; reflexivity|].
  split; [exact Hevs|].
  cbn. rewrite Hm, Hms, Hr, Hnodes. done.
Qed.

End UnmountProperties.

(** ** Paths *)

Lemma shared_back_slash a r s :
  shared_back a r = Some s -> strget a s = SLASH /\ (s ≤ r)%nat.
Proof.
  induction r as [|r IH]; simpl; intros Hb.
  - destruct (bool_decide (strget a 0 = SLASH)) eqn:E; [|discriminate].
    apply bool_decide_eq_true in E. inversion Hb; subst. done.
  - destruct (bool_decide (strget a (S r) = SLASH)) eqn:E.
    + apply bool_decide_eq_true in E. inversion Hb; subst. done.
    + destruct (IH Hb). split; [assumption|lia].
Qed.

Lemma shared_scan_same a b i :
  (i < shared_scan a b)%nat -> strget a i = strget b i.
Proof.
  revert b i. induction a as [|x a IH]; intros [|y b] i; simpl; try lia.
  destruct (bool_decide (x = y)) eqn:E; simpl; [|lia].
  apply bool_decide_eq_true in E. subst y.
  destruct (bool_decide (x = NUL)); simpl; [lia|].
  intros Hi. destruct i as [|i]; [reflexivity|].
  unfold strget. simpl. apply (IH b i). lia.
Qed.

Lemma str_cut_scan a b s :
  (s ≤ shared_scan a b)%nat -> str_cut s a = str_cut s b.
Proof.
  revert b s. induction a as [|x a IH]; intros [|y b] [|s]; simpl; try reflexivity; try lia.
  destruct (bool_decide (x = y)) eqn:E; simpl; [|lia].
  apply bool_decide_eq_true in E. subst y.
  destruct (bool_decide (x = NUL)); simpl; [lia|].
  intros Hs. f_equal. apply IH. lia.
Qed.

(** The index that [shared_path] returns lies within the common part; where
    the two strings differ at the end of that part, it is the index of a
    slash in both. *)
Lemma shared_path_le a b s :
  shared_path a b = Some s -> (s ≤ shared_scan a b)%nat.
Proof.
  unfold shared_path. destruct (bool_decide _).
  - intros [= <-]. lia.
  - destruct (shared_scan a b) as [|r]; [discriminate|].
    intros [_ Hle]%shared_back_slash. lia.
Qed.

Lemma shared_path_slash a b s :
  shared_path a b = Some s ->
  strget a (shared_scan a b) ≠ strget b (shared_scan a b) ->
  strget a s = SLASH /\ strget b s = SLASH.
Proof.
  unfold shared_path. intros Hs Hne.
  rewrite bool_decide_eq_false_2 in Hs by exact Hne.
  destruct (shared_scan a b) as [|r] eqn:Hscan; [discriminate|].
  apply shared_back_slash in Hs as [Hsl Hle]. split; [exact Hsl|].
  rewrite <- Hsl. symmetry. apply shared_scan_same. lia.
Qed.

(** The test that is to keep one path from being a prefix of the other can
    only fire when the scan ended on equal characters, that is when the two
    paths are the same string. *)
Lemma prefix_test_only_equal a b s :
  shared_path a b = Some s ->
  strget a s = NUL \/ strget b s = NUL ->
  strget a (shared_scan a b) = strget b (shared_scan a b).
Proof.
  intros Hs Hnul.
  destruct (decide (strget a (shared_scan a b) = strget b (shared_scan a b)))
    as [Heq|Hne]; [exact Heq|].
  destruct (shared_path_slash a b s Hs Hne) as [Ha Hb].
  destruct Hnul as [H0|H0]; rewrite H0 in *; discriminate.
Qed.

Lemma strget_slash_cons a s :
  strget a s = SLASH ->
  match s with
  | O => exists a', a = String SLASH a'
  | S s' => exists c a', a = String c a' /\ strget a' s' = SLASH
  end.
Proof.
  destruct a as [|c a'], s as [|s']; unfold strget; simpl; try discriminate.
  - intros ->. eauto.
  - intros Hs. eauto.
Qed.

Lemma components_split s : forall a acc,
  strget a s = SLASH ->
  components_from acc a
  = (components_from acc (str_cut s a) ++ components_from "" (str_from s a))%list.
Proof.
  induction s as [|s IH]; intros a acc Hs; apply strget_slash_cons in Hs.
  - destruct Hs as (a' & ->). reflexivity.
  - destruct Hs as (c & a' & -> & Hs). simpl.
    destruct (bool_decide (c = SLASH)).
    + rewrite (IH a' "" Hs). rewrite app_assoc. reflexivity.
    + apply IH, Hs.
Qed.

(** ** Walks in the directory graph *)

Lemma split_last_app dir name : split_last (dir ++ [name]) = Some (dir, name).
Proof.
  induction dir as [|x dir IH]; [reflexivity|].
  cbn [app split_last]. rewrite IH.
  destruct (dir ++ [name])%list eqn:E; [|reflexivity].
  destruct dir; discriminate.
Qed.

Lemma split_last_Some l dir name :
  split_last l = Some (dir, name) -> l = (dir ++ [name])%list.
Proof.
  revert dir. induction l as [|x l IH]; intros dir; [discriminate|].
  cbn [split_last]. destruct l as [|y l'].
  - intros [= <- <-]. reflexivity.
  - destruct (split_last (y :: l')) as [[d n]|]; [|discriminate].
    simpl. intros [= <- <-]. rewrite (IH d eq_refl). reflexivity.
Qed.

Lemma split_last_None l : split_last l = None -> l = [].
Proof.
  induction l as [|x l IH]; [reflexivity|].
  cbn [split_last]. destruct l as [|y l']; [discriminate|].
  destruct (split_last (y :: l')) as [[d n]|]; [discriminate|].
  intros _. discriminate (IH eq_refl).
Qed.

Section Walks.
Implicit Types d : gmap (vfs_triplet * string) vfs_triplet.

Lemma ns_walk_app d cur l1 l2 :
  ns_walk d cur (l1 ++ l2) = ns_walk d cur l1 ≫= fun t => ns_walk d t l2.
Proof.
  revert cur. induction l1 as [|c l1 IH]; intros cur; [reflexivity|].
  simpl. destruct (d !! (cur, c)); [apply IH|reflexivity].
Qed.

Lemma ns_walk_snoc d cur dir name p :
  ns_walk d cur dir = Some p -> ns_walk d cur (dir ++ [name]) = d !! (p, name).
Proof.
  intros Hw. rewrite ns_walk_app, Hw. simpl. destruct (d !! (p, name)); reflexivity.
Qed.

(** A walk that succeeds in a graph succeeds in every larger graph. *)
Lemma ns_walk_mono d d' cur names t :
  d ⊆ d' -> ns_walk d cur names = Some t -> ns_walk d' cur names = Some t.
Proof.
  intros Hsub. revert cur. induction names as [|c cs IH]; intros cur; [done|].
  simpl. destruct (d !! (cur, c)) as [u|] eqn:Hu; [|discriminate].
  rewrite (lookup_weaken _ _ _ _ Hu Hsub). apply IH.
Qed.

(** A walk depends only on the entries it looks at. *)
Lemma ns_walk_agree d d' cur names :
  (forall k, k ∈ walk_keys d cur names -> d' !! k = d !! k) ->
  ns_walk d' cur names = ns_walk d cur names.
Proof.
  revert cur. induction names as [|c cs IH]; intros cur Hk; [reflexivity|].
  simpl in *. rewrite (Hk (cur, c)) by (apply list_elem_of_here).
  destruct (d !! (cur, c)) as [u|]; [|reflexivity].
  apply IH. intros k Hin. apply Hk. apply list_elem_of_further, Hin.
Qed.

Lemma walk_keys_elem d cur names k :
  k ∈ walk_keys d cur names ->
  exists pre c post, names = (pre ++ c :: post)%list
    /\ ns_walk d cur pre = Some k.1 /\ k.2 = c.
Proof.
  revert cur. induction names as [|c cs IH]; intros cur Hin; simpl in Hin.
  - inversion Hin.
  - apply elem_of_cons in Hin as [->|Hin].
    + exists [], c, cs. done.
    + destruct (d !! (cur, c)) as [u|] eqn:Hu; [|inversion Hin].
      destruct (IH u Hin) as (pre & c' & post & -> & Hw & Hc).
      exists (c :: pre), c', post. simpl. rewrite Hu. done.
Qed.

Lemma walk_keys_last d cur dir name p :
  ns_walk d cur dir = Some p -> (p, name) ∈ walk_keys d cur (dir ++ [name]).
Proof.
  revert cur. induction dir as [|c cs IH]; intros cur; simpl.
  - intros [= ->]. apply list_elem_of_here.
  - destruct (d !! (cur, c)) as [u|]; [|discriminate].
    intros Hw. apply list_elem_of_further, IH, Hw.
Qed.

Lemma walk_keys_present d cur names t k :
  ns_walk d cur names = Some t -> k ∈ walk_keys d cur names -> is_Some (d !! k).
Proof.
  revert cur. induction names as [|c cs IH]; intros cur Hw Hin; simpl in *.
  - inversion Hin.
  - destruct (d !! (cur, c)) as [u|] eqn:Hu; [|discriminate].
    apply elem_of_cons in Hin as [->|Hin]; [eauto|].
    apply (IH u); assumption.
Qed.

(** In a graph without cycles, a walk to a directory looks at no entry of a
    directory that lies at or below its end. *)
Lemma walk_keys_above d base cp B dir P name :
  ns_acyclic d ->
  ns_walk d base cp = Some B -> ns_walk d B dir = Some P ->
  (P, name) ∉ walk_keys d base cp.
Proof.
  intros Hac Hcp Hdir Hin.
  destruct (walk_keys_elem _ _ _ _ Hin) as (pre & c & post & -> & Hpre & Hc).
  simpl in *. subst c.
  rewrite ns_walk_app, Hpre in Hcp.
  change (ns_walk d P (name :: post) = Some B) in Hcp.
  assert (Hloop : ns_walk d P ((name :: post) ++ dir) = Some P).
  { rewrite ns_walk_app, Hcp. exact Hdir. }
  apply Hac in Hloop. discriminate.
Qed.

(** A walk that went through an entry fails once the entry is gone and the
    other entries are as they were. *)
Lemma ns_walk_removed d d' cur names t k :
  ns_walk d cur names = Some t ->
  k ∈ walk_keys d cur names ->
  (forall k' v, k' ≠ k -> d !! k' = Some v -> d' !! k' = Some v) ->
  d' !! k = None ->
  ns_walk d' cur names = None.
Proof.
  intros Hw Hin Hsame Hgone. revert cur Hw Hin.
  induction names as [|c cs IH]; intros cur Hw Hin; simpl in *.
  - inversion Hin.
  - destruct (d !! (cur, c)) as [u|] eqn:Hu; [|discriminate].
    destruct (decide ((cur, c) = k)) as [<-|Hne].
    + rewrite Hgone. reflexivity.
    + rewrite (Hsame _ _ Hne Hu).
      apply elem_of_cons in Hin as [->|Hin]; [done|].
      apply IH; assumption.
Qed.

End Walks.

(** ** The resolver of the directory-graph world *)

Lemma fs_result_triplet w t : lr_triplet (fs_result w t) = t.
Proof. unfold fs_result. destruct (attrs w !! t) as [[ty sz]|]; reflexivity. Qed.

Lemma fs_result_attrs w w' t : attrs w = attrs w' -> fs_result w t = fs_result w' t.
Proof. unfold fs_result. intros ->. reflexivity. Qed.

(** A plain lookup is a walk along the names of the path. *)
Lemma ns_resolve_walk w base path :
  ns_resolve w base path
  = match ns_walk (dentries w) base (path_components path) with
    | Some t => (EOK, fs_result w t)
    | None => (ENOENT, no_result)
    end.
Proof.
  unfold ns_resolve, ns_lookup.
  destruct (split_last (path_components path)) as [[dir name]|] eqn:Hsl.
  - apply split_last_Some in Hsl. rewrite Hsl.
    destruct (ns_walk (dentries w) base dir) as [p|] eqn:Hw.
    + rewrite (ns_walk_snoc _ _ _ name _ Hw).
      destruct (dentries w !! (p, name)); reflexivity.
    + rewrite ns_walk_app, Hw. reflexivity.
  - apply split_last_None in Hsl. rewrite Hsl. reflexivity.
Qed.

Lemma ns_lookup_unlink_spec w base path w' rc lr :
  ns_lookup w base path (Z.lor L_UNLINK L_DISABLE_MOUNTS) = (w', (rc, lr)) ->
  attrs w' = attrs w /\ faults w' = faults w /\ answers w' = answers w
  /\ ((rc = EOK /\ exists dir name p,
         path_components path = (dir ++ [name])%list
         /\ ns_walk (dentries w) base dir = Some p
         /\ dentries w !! (p, name) = Some (lr_triplet lr)
         /\ dentries w' = delete (p, name) (dentries w))
      \/ (rc ≠ EOK /\ dentries w' = dentries w
          /\ (rc = ENOENT -> ns_walk (dentries w) base (path_components path) = None))).
Proof.
  unfold ns_lookup.
  change (cbool (Z.land (Z.lor L_UNLINK L_DISABLE_MOUNTS) L_UNLINK)) with true.
  change (cbool (Z.land (Z.lor L_UNLINK L_DISABLE_MOUNTS) L_CREATE)) with false.
  change (type_allowed (Z.lor L_UNLINK L_DISABLE_MOUNTS)) with (fun _ : vfs_node_type => true).
  cbn [andb negb].
  destruct (split_last (path_components path)) as [[dir name]|] eqn:Hsl.
  - apply split_last_Some in Hsl.
    destruct (ns_walk (dentries w) base dir) as [p|] eqn:Hw.
    + destruct (dentries w !! (p, name)) as [t|] eqn:Ht.
      * intros [= <- <- <-]. repeat (split; [reflexivity|]). left.
        split; [reflexivity|]. exists dir, name, p.
        rewrite fs_result_triplet. done.
      * intros [= <- <- <-]. repeat (split; [reflexivity|]). right.
        split; [discriminate|]. split; [reflexivity|]. intros _.
        rewrite Hsl, (ns_walk_snoc _ _ _ name _ Hw). exact Ht.
    + intros [= <- <- <-]. repeat (split; [reflexivity|]). right.
      split; [discriminate|]. split; [reflexivity|]. intros _.
      rewrite Hsl, ns_walk_app, Hw. reflexivity.
  - intros [= <- <- <-]. repeat (split; [reflexivity|]). right.
    split; [discriminate|]. split; [reflexivity|]. discriminate.
Qed.

Lemma fs_lookup_unlink_spec w base path w' rc lr :
  fs_lookup w base path (Z.lor L_UNLINK L_DISABLE_MOUNTS) = (w', (rc, lr)) ->
  attrs w' = attrs w
  /\ ((rc = EOK /\ exists dir name p,
         path_components path = (dir ++ [name])%list
         /\ ns_walk (dentries w) base dir = Some p
         /\ dentries w !! (p, name) = Some (lr_triplet lr)
         /\ dentries w' = delete (p, name) (dentries w))
      \/ (rc ≠ EOK /\ dentries w' = dentries w
          /\ (rc = ENOENT -> ns_walk (dentries w) base (path_components path) = None))).
Proof.
  unfold fs_lookup. destruct (faults w) as [|[|] f].
  - intros Hl. apply ns_lookup_unlink_spec in Hl as (Ha & _ & _ & Hl). done.
  - intros [= <- <- <-]. split; [reflexivity|]. right.
    split; [discriminate|]. split; [reflexivity|]. discriminate.
  - intros Hl. apply ns_lookup_unlink_spec in Hl as (Ha & _ & _ & Hl). done.
Qed.

Lemma fs_lookup_dir_spec w base path w' rc lr :
  fs_lookup w base path L_DIRECTORY = (w', (rc, lr)) ->
  attrs w' = attrs w /\ dentries w' = dentries w
  /\ (rc = EOK -> ns_walk (dentries w) base (path_components path) = Some (lr_triplet lr)).
Proof.
  assert (Hns : forall w0, ns_lookup w0 base path L_DIRECTORY = (w', (rc, lr)) ->
            attrs w' = attrs w0 /\ dentries w' = dentries w0
            /\ (rc = EOK ->
                ns_walk (dentries w0) base (path_components path) = Some (lr_triplet lr))).
  { intros w0. unfold ns_lookup.
    change (cbool (Z.land L_DIRECTORY L_UNLINK)) with false.
    change (cbool (Z.land L_DIRECTORY L_CREATE)) with false.
    cbn [andb negb].
    destruct (split_last (path_components path)) as [[dir name]|] eqn:Hsl.
    - apply split_last_Some in Hsl.
      destruct (ns_walk (dentries w0) base dir) as [p|] eqn:Hw.
      + destruct (dentries w0 !! (p, name)) as [t|] eqn:Ht.
        * destruct (type_allowed _ _); cbn [negb]; intros [= <- <- <-];
            (split; [reflexivity|]); (split; [reflexivity|]); [|discriminate].
          intros _. rewrite Hsl, (ns_walk_snoc _ _ _ name _ Hw), fs_result_triplet.
          exact Ht.
        * intros [= <- <- <-]. done.
      + intros [= <- <- <-]. done.
    - apply split_last_None in Hsl.
      destruct (type_allowed _ _); intros [= <- <- <-];
        (split; [reflexivity|]); (split; [reflexivity|]); [|discriminate].
      intros _. rewrite Hsl, fs_result_triplet. reflexivity. }
  unfold fs_lookup. destruct (faults w) as [|[|] f].
  - apply Hns.
  - intros [= <- <- <-]. done.
  - intros Hl. apply Hns in Hl. exact Hl.
Qed.

Lemma fs_link_spec w base path child w' rc :
  fs_link w base path child = (w', rc) ->
  attrs w' = attrs w
  /\ ((rc = EOK /\ exists dir name p,
         path_components path = (dir ++ [name])%list
         /\ ns_walk (dentries w) base dir = Some p
         /\ dentries w !! (p, name) = None
         /\ dentries w' = <[(p, name) := child]> (dentries w))
      \/ (rc ≠ EOK /\ dentries w' = dentries w)).
Proof.
  assert (Hns : forall w0, ns_link w0 base path child = (w', rc) ->
    attrs w' = attrs w0
    /\ ((rc = EOK /\ exists dir name p,
           path_components path = (dir ++ [name])%list
           /\ ns_walk (dentries w0) base dir = Some p
           /\ dentries w0 !! (p, name) = None
           /\ dentries w' = <[(p, name) := child]> (dentries w0))
        \/ (rc ≠ EOK /\ dentries w' = dentries w0))).
  { intros w0. unfold ns_link.
    destruct (split_last (path_components path)) as [[dir name]|] eqn:Hsl.
    - apply split_last_Some in Hsl.
      destruct (ns_walk (dentries w0) base dir) as [p|] eqn:Hw.
      + destruct (dentries w0 !! (p, name)) as [t|] eqn:Ht.
        * intros [= <- <-]. split; [reflexivity|]. right. done.
        * intros [= <- <-]. split; [reflexivity|]. left. split; [reflexivity|].
          exists dir, name, p. done.
      + intros [= <- <-]. split; [reflexivity|]. right. done.
    - intros [= <- <-]. split; [reflexivity|]. right. done. }
  unfold fs_link. destruct (faults w) as [|[|] f].
  - apply Hns.
  - intros [= <- <-]. split; [reflexivity|]. right. done.
  - intros Hl. apply Hns in Hl. exact Hl.
Qed.

Lemma fs_call_spec w req :
  attrs (fs_call w req).1 = attrs w /\ dentries (fs_call w req).1 = dentries w.
Proof. unfold fs_call. destruct (answers w); done. Qed.

(** ** Rename on the directory graph *)

Section RenameGraph.
Implicit Types d : gmap (vfs_triplet * string) vfs_triplet.

(** The three steps of a successful rename, applied to a graph without
    cycles: the new name is unlinked if it is there, the old name is
    unlinked, the triplet of the old name is linked at the new name.  [cp] is
    the shared part of the two paths, [ca] and [cb] are their other parts. *)
Lemma rename_graph_success d d1 d2 d3 base cp B ca cb dira na Po To dirb nn P' :
  ns_acyclic d ->
  ns_walk d base cp = Some B ->
  ((exists dir1 n1 Pn Tn,
      cb = (dir1 ++ [n1])%list /\ ns_walk d B dir1 = Some Pn
      /\ d !! (Pn, n1) = Some Tn /\ d1 = delete (Pn, n1) d)
   \/ (d1 = d /\ ns_walk d B cb = None)) ->
  ca = (dira ++ [na])%list -> ns_walk d1 B dira = Some Po ->
  d1 !! (Po, na) = Some To -> d2 = delete (Po, na) d1 ->
  cb = (dirb ++ [nn])%list -> ns_walk d2 B dirb = Some P' ->
  d2 !! (P', nn) = None -> d3 = <[(P', nn) := To]> d2 ->
  ns_walk d base (cp ++ ca) = Some To
  /\ ns_walk d3 base (cp ++ ca) = None
  /\ ns_walk d3 base (cp ++ cb) = Some To.
Proof.
  intros Hac Hcp H1 Hca Hdira HTo Hd2 Hcb Hdirb Hfree Hd3.
  assert (Hsub1 : d1 ⊆ d).
  { destruct H1 as [(? & ? & ? & ? & _ & _ & _ & ->)|[-> _]];
      [apply delete_subseteq|reflexivity]. }
  assert (Hsub2 : d2 ⊆ d1) by (subst d2; apply delete_subseteq).
  assert (Hsub3 : d2 ⊆ d3) by (subst d3; apply insert_subseteq, Hfree).
  pose proof (ns_walk_mono _ _ _ _ _ Hsub1 Hdira) as Hdira0.
  pose proof (ns_walk_mono _ _ _ _ _ Hsub2 Hdirb) as Hdirb1.
  pose proof (ns_walk_mono _ _ _ _ _ Hsub1 Hdirb1) as Hdirb0.
  (* the entry that is linked is not the entry of the old name *)
  assert (Hne : (P', nn) ≠ (Po, na)).
  { intros [= -> ->].
    destruct H1 as [(dir1 & n1 & Pn & Tn & Hcb1 & Hdir1 & HTn & ->)|[-> Hnone]].
    - rewrite Hcb in Hcb1. apply app_inj_tail in Hcb1 as [<- <-].
      rewrite Hdirb0 in Hdir1. inversion Hdir1; subst Pn.
      rewrite lookup_delete_eq in HTo. discriminate.
    - rewrite Hcb, (ns_walk_snoc _ _ _ na _ Hdirb0) in Hnone. congruence. }
  assert (Hgone : d3 !! (Po, na) = None).
  { subst d3 d2. rewrite lookup_insert_ne by exact Hne. apply lookup_delete_eq. }
  assert (Hkeep : forall k v, k ≠ (Po, na) -> d1 !! k = Some v -> d3 !! k = Some v).
  { intros k v Hk Hv. subst d3.
    assert (d2 !! k = Some v) as Hv2 by (subst d2; rewrite lookup_delete_ne; done).
    rewrite lookup_insert_ne; [exact Hv2|]. intros <-. congruence. }
  (* the shared part resolves as before *)
  assert (Hcp3 : ns_walk d3 base cp = Some B).
  { rewrite <- Hcp. apply ns_walk_agree. intros k Hk.
    destruct (walk_keys_present _ _ _ _ _ Hcp Hk) as [v Hv]. rewrite Hv.
    apply Hkeep.
    - intros ->. exact (walk_keys_above _ _ _ _ _ _ na Hac Hcp Hdira0 Hk).
    - destruct H1 as [(dir1 & n1 & Pn & Tn & Hcb1 & Hdir1 & HTn & ->)|[-> _]];
        [|exact Hv].
      rewrite lookup_delete_ne; [exact Hv|]. intros <-.
      exact (walk_keys_above _ _ _ _ _ _ n1 Hac Hcp Hdir1 Hk). }
  split; [|split].
  - rewrite ns_walk_app, Hcp. cbn [mbind option_bind]. rewrite Hca.
    rewrite (ns_walk_snoc _ _ _ na _ Hdira0).
    exact (lookup_weaken _ _ _ _ HTo Hsub1).
  - rewrite ns_walk_app, Hcp3. cbn [mbind option_bind].
    apply (ns_walk_removed d1 d3 B ca To (Po, na)).
    + rewrite Hca, (ns_walk_snoc _ _ _ na _ Hdira). exact HTo.
    + rewrite Hca. apply walk_keys_last, Hdira.
    + exact Hkeep.
    + exact Hgone.
  - rewrite ns_walk_app, Hcp3. cbn [mbind option_bind]. rewrite Hcb.
    rewrite (ns_walk_snoc _ _ _ nn _ (ns_walk_mono _ _ _ _ _ Hsub3 Hdirb)).
    subst d3. apply lookup_insert_eq.
Qed.

(** Linking a triplet back under the name it was unlinked from gives the
    graph from before the unlink. *)
Lemma relink_restores d dX dY B comps dir n P T dir' n' P' :
  comps = (dir ++ [n])%list -> ns_walk d B dir = Some P -> d !! (P, n) = Some T ->
  dX = delete (P, n) d ->
  comps = (dir' ++ [n'])%list -> ns_walk dX B dir' = Some P' ->
  dY = <[(P', n') := T]> dX ->
  dY = d.
Proof.
  intros Hc Hdir HT -> Hc' Hdir' ->.
  rewrite Hc in Hc'. apply app_inj_tail in Hc' as [<- <-].
  pose proof (ns_walk_mono _ _ _ _ _ (delete_subseteq _ _) Hdir') as Hd.
  rewrite Hdir in Hd. inversion Hd; subst P'.
  apply insert_delete_id, HT.
Qed.

End RenameGraph.

(** ** Rename in the broker *)

Lemma fs_node_put_world p (st st' : vfs_state fs_world) :
  vfs_node_put p st = Done st' ->
  dentries (world st') = dentries (world st)
  /\ attrs (world st') = attrs (world st)
  /\ exists evs, log st' = (log st ++ evs)%list /\ relinks_ok evs = true.
Proof.
  unfold vfs_node_put, node_at. destruct (nodes st !! p) as [n|]; [|discriminate].
  cbn [mbind result_bind]. destruct (bool_decide _).
  - unfold do_call. cbn [world set_nodes backend_call fs_backend].
    pose proof (fs_call_spec (world st)
                  (VFS_OUT_DESTROY (fs_handle (n_triplet n)) (service_id (n_triplet n))
                     (index (n_triplet n)))) as [Ha Hd].
    destruct (fs_call _ _) as [w a]. cbn [fst snd] in *.
    intros [= <-]. cbn. split; [exact Hd|]. split; [exact Ha|].
    eexists [_]. done.
  - intros [= <-]. cbn. split; [reflexivity|]. split; [reflexivity|].
    exists []. rewrite app_nil_r. done.
Qed.


Lemma do_lookup_unlink_spec (st st1 : vfs_state fs_world) B path rc lr :
  do_lookup B path (Z.lor L_UNLINK L_DISABLE_MOUNTS) st = ((rc, lr), st1) ->
  log st1 = (log st ++ [EvLookup B path (Z.lor L_UNLINK L_DISABLE_MOUNTS) rc])%list
  /\ attrs (world st1) = attrs (world st)
  /\ ((rc = EOK /\ exists dir name p,
         path_components path = (dir ++ [name])%list
         /\ ns_walk (dentries (world st)) B dir = Some p
         /\ dentries (world st) !! (p, name) = Some (lr_triplet lr)
         /\ dentries (world st1) = delete (p, name) (dentries (world st)))
      \/ (rc ≠ EOK /\ dentries (world st1) = dentries (world st)
          /\ (rc = ENOENT ->
              ns_walk (dentries (world st)) B (path_components path) = None))).
Proof.
  unfold do_lookup. cbn [vfs_lookup_internal fs_backend].
  destruct (fs_lookup _ _ _ _) as [w [rc0 lr0]] eqn:Hl.
  apply fs_lookup_unlink_spec in Hl as [Ha Hl].
  intros [= <- <- <-]. cbn. done.
Qed.

Lemma do_link_spec (st st1 : vfs_state fs_world) B path child rc :
  do_link B path child st = (rc, st1) ->
  log st1 = (log st ++ [EvLink B path child rc])%list
  /\ attrs (world st1) = attrs (world st)
  /\ ((rc = EOK /\ exists dir name p,
         path_components path = (dir ++ [name])%list
         /\ ns_walk (dentries (world st)) B dir = Some p
         /\ dentries (world st) !! (p, name) = None
         /\ dentries (world st1) = <[(p, name) := child]> (dentries (world st)))
      \/ (rc ≠ EOK /\ dentries (world st1) = dentries (world st))).
Proof.
  unfold do_link. cbn [vfs_link_internal fs_backend].
  destruct (fs_link _ _ _ _) as [w rc0] eqn:Hl.
  apply fs_link_spec in Hl as [Ha Hl].
  intros [= <- <-]. cbn. done.
Qed.

Lemma do_relink_spec (st : vfs_state fs_world) B path child :
  exists rc,
    log (do_relink B path child st) = (log st ++ [EvRelink B path child rc])%list
    /\ attrs (world (do_relink B path child st)) = attrs (world st)
    /\ ((rc = EOK /\ exists dir name p,
           path_components path = (dir ++ [name])%list
           /\ ns_walk (dentries (world st)) B dir = Some p
           /\ dentries (world st) !! (p, name) = None
           /\ dentries (world (do_relink B path child st))
              = <[(p, name) := child]> (dentries (world st)))
        \/ (rc ≠ EOK /\ dentries (world (do_relink B path child st)) = dentries (world st))).
Proof.
  unfold do_relink. cbn [vfs_link_internal fs_backend].
  destruct (fs_link _ _ _ _) as [w rc0] eqn:Hl.
  apply fs_link_spec in Hl as [Ha Hl].
  exists rc0. cbn. done.
Qed.

Lemma rename_steps_spec (st : vfs_state fs_world) B olds news rc st' :
  vfs_rename_steps B olds news st = Done (rc, st') ->
  attrs (world st') = attrs (world st)
  /\ exists evs, log st' = (log st ++ evs)%list
     /\ (rc = EOK -> forall base cp,
           ns_acyclic (dentries (world st)) ->
           ns_walk (dentries (world st)) base cp = Some B ->
           exists To,
             ns_walk (dentries (world st)) base (cp ++ path_components olds) = Some To
             /\ ns_walk (dentries (world st')) base (cp ++ path_components olds) = None
             /\ ns_walk (dentries (world st')) base (cp ++ path_components news) = Some To)
     /\ (rc ≠ EOK -> relinks_ok evs = true -> dentries (world st') = dentries (world st)).
Proof.
  unfold vfs_rename_steps.
  destruct (do_lookup B news _ st) as [[rc1 lr1] st1] eqn:E1.
  apply do_lookup_unlink_spec in E1 as (Hlog1 & Ha1 & H1).
  destruct (negb (is_EOK rc1) && negb (bool_decide (rc1 = ENOENT))) eqn:Estop.
  { (* the first unlink failed with something else than ENOENT *)
    intros [= <- <-]. split; [exact Ha1|]. eexists. split; [exact Hlog1|].
    destruct H1 as [[-> _]|(Hne & Hd & _)]; [discriminate|].
    split; [intros; contradiction|]. intros _ _. exact Hd. }
  destruct (do_lookup B olds _ st1) as [[rc2 lr2] st2] eqn:E2.
  apply do_lookup_unlink_spec in E2 as (Hlog2 & Ha2 & H2).
  destruct (is_EOK rc2) eqn:Erc2; cbn [negb].
  2:{ (* the old name could not be unlinked *)
    apply bool_decide_eq_false in Erc2.
    destruct H2 as [[-> _]|(_ & Hd2 & _)]; [contradiction|].
    destruct H1 as [(-> & dir1 & n1 & Pn & Hc1 & Hw1 & Hl1 & Hd1)|(Hne1 & Hd1 & _)].
    - change (is_EOK EOK) with true. cbv iota.
      destruct (do_relink_spec st2 B news (lr_triplet lr1)) as (rc3 & Hlog3 & Ha3 & H3).
      intros [= <- <-]. split; [congruence|].
      eexists. split; [rewrite Hlog3, Hlog2, Hlog1, <- !app_assoc; reflexivity|].
      split; [intros; contradiction|]. intros _ Hok. cbn in Hok.
      rewrite andb_true_r in Hok. apply bool_decide_eq_true in Hok. subst rc3.
      destruct H3 as [(_ & dir3 & n3 & P3 & Hc3 & Hw3 & _ & Hd3)|[? _]]; [|congruence].
      rewrite Hd2 in Hw3, Hd3.
      apply (relink_restores _ _ _ _ _ _ _ _ _ _ _ _ Hc1 Hw1 Hl1 Hd1 Hc3 Hw3 Hd3).
    - rewrite (proj2 (bool_decide_eq_false _) Hne1 : is_EOK rc1 = false).
      intros [= <- <-]. split; [congruence|].
      eexists. split; [rewrite Hlog2, Hlog1, <- !app_assoc; reflexivity|].
      split; [intros; contradiction|]. intros _ _. congruence. }
  apply bool_decide_eq_true in Erc2. subst rc2.
  destruct H2 as [(_ & dira & na & Po & Hca & Hwa & Hla & Hd2)|[? _]]; [|congruence].
  destruct (do_link B news (lr_triplet lr2) st2) as [rc3 st3] eqn:E3.
  apply do_link_spec in E3 as (Hlog3 & Ha3 & H3).
  destruct (is_EOK rc3) eqn:Erc3; cbn [negb].
  2:{ (* the link of the new name failed *)
    apply bool_decide_eq_false in Erc3.
    destruct H3 as [[-> _]|(_ & Hd3)]; [contradiction|].
    destruct (do_relink_spec st3 B olds (lr_triplet lr2)) as (rc4 & Hlog4 & Ha4 & H4).
    set (st4 := do_relink B olds (lr_triplet lr2) st3) in *.
    assert (Hback : rc4 = EOK -> dentries (world st4) = dentries (world st1)).
    { intros ->.
      destruct H4 as [(_ & dir4 & n4 & P4 & Hc4 & Hw4 & _ & Hd4)|[? _]]; [|congruence].
      rewrite Hd3 in Hw4, Hd4.
      apply (relink_restores _ _ _ _ _ _ _ _ _ _ _ _ Hca Hwa Hla Hd2 Hc4 Hw4 Hd4). }
    destruct H1 as [(-> & dir1 & n1 & Pn & Hc1 & Hw1 & Hl1 & Hd1)|(Hne1 & Hd1 & _)].
    - change (is_EOK EOK) with true. cbv iota.
      destruct (do_relink_spec st4 B news (lr_triplet lr1)) as (rc5 & Hlog5 & Ha5 & H5).
      intros [= <- <-]. split; [congruence|].
      eexists. split;
        [rewrite Hlog5, Hlog4, Hlog3, Hlog2, Hlog1, <- !app_assoc; reflexivity|].
      split; [intros; contradiction|]. intros _ Hok. cbn in Hok.
      rewrite andb_true_r in Hok. apply andb_true_iff in Hok as [Hok4 Hok5].
      apply bool_decide_eq_true in Hok4, Hok5. subst rc5.
      specialize (Hback Hok4).
      destruct H5 as [(_ & dir5 & n5 & P5 & Hc5 & Hw5 & _ & Hd5)|[? _]]; [|congruence].
      rewrite Hback in Hw5, Hd5.
      apply (relink_restores _ _ _ _ _ _ _ _ _ _ _ _ Hc1 Hw1 Hl1 Hd1 Hc5 Hw5 Hd5).
    - rewrite (proj2 (bool_decide_eq_false _) Hne1 : is_EOK rc1 = false).
      intros [= <- <-]. split; [congruence|].
      eexists. split; [rewrite Hlog4, Hlog3, Hlog2, Hlog1, <- !app_assoc; reflexivity|].
      split; [intros; contradiction|]. intros _ Hok. cbn in Hok.
      rewrite andb_true_r in Hok. apply bool_decide_eq_true in Hok.
      rewrite (Hback Hok). exact Hd1. }
  (* all three steps succeeded *)
  apply bool_decide_eq_true in Erc3. subst rc3.
  destruct H3 as [(_ & dirb & nn & P' & Hcb & Hwb & Hfree & Hd3)|[? _]]; [|congruence].
  assert (Hgraph : forall base cp,
    ns_acyclic (dentries (world st)) ->
    ns_walk (dentries (world st)) base cp = Some B ->
    ns_walk (dentries (world st)) base (cp ++ path_components olds) = Some (lr_triplet lr2)
    /\ ns_walk (dentries (world st3)) base (cp ++ path_components olds) = None
    /\ ns_walk (dentries (world st3)) base (cp ++ path_components news)
       = Some (lr_triplet lr2)).
  { intros base cp Hac Hcp.
    eapply (rename_graph_success (dentries (world st)) (dentries (world st1))
              (dentries (world st2)) (dentries (world st3)));
      try eassumption.
    destruct H1 as [(-> & dir1 & n1 & Pn & Hc1 & Hw1 & Hl1 & Hd1)|(Hne1 & Hd1 & Hnone)].
    - left. exists dir1, n1, Pn, (lr_triplet lr1). done.
    - right. split; [exact Hd1|]. apply Hnone.
      apply andb_false_iff in Estop as [Hs|Hs].
      + apply negb_false_iff, bool_decide_eq_true in Hs. contradiction.
      + apply negb_false_iff, bool_decide_eq_true in Hs. exact Hs. }
  destruct (is_EOK rc1) eqn:Erc1.
  - destruct (vfs_node_get_Some lr1 st3) as (q & qn & Hq & Hqn & _ & Hlogq & Hwq).
    destruct (vfs_node_get lr1 st3) as [r st4]. cbn [fst snd] in *. subst r.
    destruct (vfs_node_put q st4) as [st5|] eqn:Hput; [|discriminate].
    apply fs_node_put_world in Hput as (Hd5 & Ha5 & evs5 & Hlog5 & Hok5).
    cbn [mbind result_bind]. intros [= <- <-].
    split; [congruence|].
    eexists. split;
      [rewrite Hlog5, Hlogq, Hlog3, Hlog2, Hlog1, <- !app_assoc; reflexivity|].
    split; [|intros; contradiction]. intros _ base cp Hac Hcp.
    exists (lr_triplet lr2). rewrite Hd5, Hwq. apply Hgraph; assumption.
  - intros [= <- <-]. split; [congruence|].
    eexists. split; [rewrite Hlog3, Hlog2, Hlog1, <- !app_assoc; reflexivity|].
    split; [|intros; contradiction]. intros _ base cp Hac Hcp.
    exists (lr_triplet lr2). apply Hgraph; assumption.
Qed.

Lemma do_lookup_dir_spec (st st1 : vfs_state fs_world) B path rc lr :
  do_lookup B path L_DIRECTORY st = ((rc, lr), st1) ->
  log st1 = (log st ++ [EvLookup B path L_DIRECTORY rc])%list
  /\ attrs (world st1) = attrs (world st)
  /\ dentries (world st1) = dentries (world st)
  /\ (rc = EOK ->
      ns_walk (dentries (world st)) B (path_components path) = Some (lr_triplet lr)).
Proof.
  unfold do_lookup. cbn [vfs_lookup_internal fs_backend].
  destruct (fs_lookup _ _ _ _) as [w [rc0 lr0]] eqn:Hl.
  apply fs_lookup_dir_spec in Hl as (Ha & Hd & Hl).
  intros [= <- <- <-]. cbn. done.
Qed.

Lemma ns_resolve_same w w' :
  dentries w' = dentries w -> attrs w' = attrs w ->
  forall base p, ns_resolve w' base p = ns_resolve w base p.
Proof.
  intros Hd Ha base p. rewrite !ns_resolve_walk, Hd.
  destruct (ns_walk _ _ _); [|reflexivity].
  rewrite (fs_result_attrs w' w) by exact Ha. reflexivity.
Qed.

(** C1, as the code has it.  A call of [vfs_rename_internal] that returns
    [EOK] on a directory graph without cycles: the old path resolved before
    the call, after the call it no longer resolves ([ENOENT]) and the new
    path resolves to what the old path resolved to.  A call that returns an
    error, and whose compensating links have all succeeded, leaves the
    directory graph as it was, so that every path resolves as before the
    call. *)
Theorem rename_atomicity (st st' : vfs_state fs_world) (base : vfs_triplet)
    (a b : string) (rc : errno) :
  vfs_rename_internal base a b st = Done (rc, st') ->
  (rc = EOK -> ns_acyclic (dentries (world st)) ->
     exists lr,
       ns_resolve (world st) base a = (EOK, lr)
       /\ ns_resolve (world st') base a = (ENOENT, no_result)
       /\ ns_resolve (world st') base b = (EOK, lr))
  /\ (rc ≠ EOK -> relinks_ok (drop (List.length (log st)) (log st')) = true ->
      dentries (world st') = dentries (world st)
      /\ attrs (world st') = attrs (world st)
      /\ forall base' p, ns_resolve (world st') base' p = ns_resolve (world st) base' p).
Proof.
  unfold vfs_rename_internal.
  destruct (shared_path a b) as [s|] eqn:Hs; [|discriminate].
  destruct (bool_decide (strget a s = NUL) || bool_decide (strget b s = NUL)).
  { intros [= <- <-]. split; [discriminate|]. intros _ _. done. }
  destruct (bool_decide (strget a s = SLASH)) eqn:Hsa; cbn [negb]; [|discriminate].
  destruct (bool_decide (strget b s = SLASH)) eqn:Hsb; cbn [negb]; [|discriminate].
  apply bool_decide_eq_true in Hsa, Hsb.
  assert (Hfin : forall (st0 : vfs_state fs_world) B olds news cp evs0,
    attrs (world st0) = attrs (world st) ->
    dentries (world st0) = dentries (world st) ->
    log st0 = (log st ++ evs0)%list -> relinks_ok evs0 = true ->
    ns_walk (dentries (world st)) base cp = Some B ->
    path_components a = (cp ++ path_components olds)%list ->
    path_components b = (cp ++ path_components news)%list ->
    vfs_rename_steps B olds news st0 = Done (rc, st') ->
    (rc = EOK -> ns_acyclic (dentries (world st)) ->
       exists lr,
         ns_resolve (world st) base a = (EOK, lr)
         /\ ns_resolve (world st') base a = (ENOENT, no_result)
         /\ ns_resolve (world st') base b = (EOK, lr))
    /\ (rc ≠ EOK -> relinks_ok (drop (List.length (log st)) (log st')) = true ->
        dentries (world st') = dentries (world st)
        /\ attrs (world st') = attrs (world st)
        /\ forall base' p, ns_resolve (world st') base' p = ns_resolve (world st) base' p)).
  { intros st0 B olds news cp evs0 Ha0 Hd0 Hlog0 Hok0 Hcp Hca Hcb Hsteps.
    apply rename_steps_spec in Hsteps as (Ha & evs & Hlog & Hgood & Hbad).
    rewrite Hd0 in Hgood, Hbad. split.
    - intros Hrc Hac.
      destruct (Hgood Hrc base cp Hac Hcp) as (To & H1 & H2 & H3).
      exists (fs_result (world st) To).
      rewrite !ns_resolve_walk, Hca, Hcb, H1, H2, H3.
      rewrite (fs_result_attrs (world st') (world st)) by congruence. done.
    - intros Hrc Hok.
      rewrite Hlog, Hlog0, <- app_assoc, drop_app_length in Hok.
      unfold relinks_ok in Hok. rewrite forallb_app in Hok.
      apply andb_true_iff in Hok as [_ Hok].
      pose proof (Hbad Hrc Hok) as Hd.
      split; [exact Hd|]. split; [congruence|].
      apply ns_resolve_same; congruence. }
  destruct (bool_decide (s = 0%nat)) eqn:Hz; cbn [negb].
  - apply bool_decide_eq_true in Hz. subst s.
    apply (Hfin st base a b [] []); try reflexivity.
    rewrite app_nil_r. reflexivity.
  - destruct (do_lookup base (str_cut s a) L_DIRECTORY st) as [[rc0 lr0] st0] eqn:E0.
    apply do_lookup_dir_spec in E0 as (Hlog0 & Ha0 & Hd0 & Hw0).
    destruct (is_EOK rc0) eqn:Erc0; cbn [negb].
    + apply bool_decide_eq_true in Erc0.
      apply (Hfin st0 (lr_triplet lr0) (str_from s a) (str_from s b)
               (path_components (str_cut s a)) [EvLookup base (str_cut s a) L_DIRECTORY rc0]);
        try assumption; try reflexivity.
      * apply Hw0, Erc0.
      * apply components_split, Hsa.
      * rewrite (str_cut_scan a b s (shared_path_le _ _ _ Hs)).
        apply components_split, Hsb.
    + apply bool_decide_eq_false in Erc0.
      intros [= <- <-]. split; [intros; contradiction|]. intros _ _.
      split; [exact Hd0|]. split; [exact Ha0|].
      apply ns_resolve_same; assumption.
Qed.

(** ** Descriptors of directories are never open for writing *)

Section Inv3.
Implicit Types (ns : gmap nat vfs_node) (fs : gmap nat vfs_file).

Lemma inv3_nodes_same ns nx fs p n n' :
  ns !! p = Some n -> n_type n' = n_type n -> (1 ≤ n_refcnt n')%nat ->
  inv3 ns nx fs -> inv3 (<[p := n']> ns) nx fs.
Proof.
  intros Hp Ht Href [Hn Hf]. split.
  - intros q m Hq. destruct (decide (p = q)) as [<-|Hne].
    + rewrite lookup_insert_eq in Hq. inversion Hq; subst m.
      split; [exact Href|]. eapply Hn, Hp.
    + rewrite lookup_insert_ne in Hq by exact Hne. eapply Hn, Hq.
  - intros fp f Hfp Hw. destruct (Hf fp f Hfp Hw) as [Hlt Hty]. split; [exact Hlt|].
    intros m Hm. destruct (decide (p = f_node f)) as [Heq|Hne].
    + rewrite <- Heq in *. rewrite lookup_insert_eq in Hm. inversion Hm; subst m.
      rewrite Ht. apply Hty, Hp.
    + rewrite lookup_insert_ne in Hm by exact Hne. apply Hty, Hm.
Qed.

Lemma inv3_nodes_alter ns nx fs g p :
  (forall n, n_type (g n) = n_type n /\ (1 ≤ n_refcnt (g n))%nat) ->
  inv3 ns nx fs -> inv3 (alter g p ns) nx fs.
Proof.
  intros Hg Hinv. destruct (ns !! p) as [n|] eqn:Hp.
  - replace (alter g p ns) with (<[p := g n]> ns).
    + eapply inv3_nodes_same; [exact Hp|apply Hg|apply Hg|exact Hinv].
    + apply map_eq. intros q. destruct (decide (p = q)) as [<-|Hne].
      * rewrite lookup_insert_eq, lookup_alter_eq, Hp. reflexivity.
      * rewrite lookup_insert_ne, lookup_alter_ne by exact Hne. reflexivity.
  - replace (alter g p ns) with ns; [exact Hinv|].
    apply map_eq. intros q. destruct (decide (p = q)) as [<-|Hne].
    + rewrite lookup_alter_eq, Hp. reflexivity.
    + rewrite lookup_alter_ne by exact Hne. reflexivity.
Qed.

Lemma inv3_nodes_fresh ns nx fs n :
  (1 ≤ n_refcnt n)%nat ->
  inv3 ns nx fs -> inv3 (<[nx := n]> ns) (S nx) fs.
Proof.
  intros Href [Hn Hf]. split.
  - intros q m Hq. destruct (decide (nx = q)) as [<-|Hne].
    + rewrite lookup_insert_eq in Hq. inversion Hq; subst m. split; [exact Href|lia].
    + rewrite lookup_insert_ne in Hq by exact Hne. apply Hn in Hq. lia.
  - intros fp f Hfp Hw. destruct (Hf fp f Hfp Hw) as [Hlt Hty]. split; [lia|].
    intros m Hm. rewrite lookup_insert_ne in Hm by lia. apply Hty, Hm.
Qed.

Lemma inv3_nodes_delete ns nx fs p :
  inv3 ns nx fs -> inv3 (delete p ns) nx fs.
Proof.
  intros [Hn Hf]. split.
  - intros q m Hq. apply lookup_delete_Some in Hq as [_ Hq]. eapply Hn, Hq.
  - intros fp f Hfp Hw. destruct (Hf fp f Hfp Hw) as [Hlt Hty]. split; [exact Hlt|].
    intros m Hm. apply lookup_delete_Some in Hm as [_ Hm]. apply Hty, Hm.
Qed.

Lemma inv3_files_closed ns nx fs p f :
  f_open_write f = false -> inv3 ns nx fs -> inv3 ns nx (<[p := f]> fs).
Proof.
  intros Hc [Hn Hf]. split; [exact Hn|].
  intros fp g Hfp Hw. destruct (decide (p = fp)) as [<-|Hne].
  - rewrite lookup_insert_eq in Hfp. inversion Hfp; subst. congruence.
  - rewrite lookup_insert_ne in Hfp by exact Hne. eapply Hf; eauto.
Qed.

Lemma inv3_files_same ns nx fs p f f' :
  fs !! p = Some f -> f_node f' = f_node f -> f_open_write f' = f_open_write f ->
  inv3 ns nx fs -> inv3 ns nx (<[p := f']> fs).
Proof.
  intros Hp Hnode Hopen [Hn Hf]. split; [exact Hn|].
  intros fp g Hfp Hw. destruct (decide (p = fp)) as [<-|Hne].
  - rewrite lookup_insert_eq in Hfp. inversion Hfp; subst g.
    rewrite Hnode. apply (Hf p f Hp). congruence.
  - rewrite lookup_insert_ne in Hfp by exact Hne. eapply Hf; eauto.
Qed.

Lemma inv3_files_typed ns nx fs p f n :
  ns !! f_node f = Some n -> n_type n ≠ VFS_NODE_DIRECTORY ->
  inv3 ns nx fs -> inv3 ns nx (<[p := f]> fs).
Proof.
  intros Hnode Hty [Hn Hf]. split; [exact Hn|].
  intros fp g Hfp Hw. destruct (decide (p = fp)) as [<-|Hne].
  - rewrite lookup_insert_eq in Hfp. inversion Hfp; subst g.
    split; [eapply Hn, Hnode|]. intros m Hm. congruence.
  - rewrite lookup_insert_ne in Hfp by exact Hne. eapply Hf; eauto.
Qed.

Lemma inv3_files_delete ns nx fs p :
  inv3 ns nx fs -> inv3 ns nx (delete p fs).
Proof.
  intros [Hn Hf]. split; [exact Hn|].
  intros fp g Hfp Hw. apply lookup_delete_Some in Hfp as [_ Hfp]. eapply Hf; eauto.
Qed.

End Inv3.

Section InvOps.
Context {W : Type} `{!Backend W}.
Implicit Types st : vfs_state W.

Lemma inv_node_get lr st : broker_inv st -> broker_inv (vfs_node_get lr st).2.
Proof.
  unfold vfs_node_get, broker_inv. intros Hinv.
  destruct (node_find _ _); cbn.
  - apply inv3_nodes_alter; [|exact Hinv]. intros m. split; [reflexivity|simpl; lia].
  - apply inv3_nodes_fresh; [simpl; lia|exact Hinv].
Qed.

Lemma inv_node_put p st st' :
  vfs_node_put p st = Done st' -> broker_inv st -> broker_inv st'.
Proof.
  unfold vfs_node_put, node_at, broker_inv.
  destruct (nodes st !! p) as [n|] eqn:Hp; [|discriminate]. cbn [mbind result_bind].
  destruct (bool_decide _) eqn:Hlast.
  - unfold do_call. cbn [world set_nodes]. destruct (backend_call _ _) as [w a].
    intros [= <-] Hinv. cbn. apply inv3_nodes_delete, Hinv.
  - apply bool_decide_eq_false in Hlast.
    intros [= <-] Hinv. cbn.
    eapply inv3_nodes_same; [exact Hp|reflexivity|simpl; lia|exact Hinv].
Qed.

Lemma inv_node_forget p st st' :
  vfs_node_forget p st = Done st' -> broker_inv st -> broker_inv st'.
Proof.
  unfold vfs_node_forget, node_at, broker_inv.
  destruct (nodes st !! p) as [n|] eqn:Hp; [|discriminate]. cbn [mbind result_bind].
  intros [= <-] Hinv. cbn. apply inv3_nodes_delete, Hinv.
Qed.

Lemma inv_do_lookup base path lflag st :
  broker_inv st -> broker_inv (do_lookup base path lflag st).2.
Proof. unfold do_lookup. destruct (vfs_lookup_internal _ _ _ _) as [w r]. done. Qed.

Lemma inv_do_link base path child st :
  broker_inv st -> broker_inv (do_link base path child st).2.
Proof. unfold do_link. destruct (vfs_link_internal _ _ _ _) as [w r]. done. Qed.

Lemma inv_do_relink base path child st :
  broker_inv st -> broker_inv (do_relink base path child st).
Proof. unfold do_relink. destruct (vfs_link_internal _ _ _ _) as [w r]. done. Qed.

Lemma inv_do_call req st : broker_inv st -> broker_inv (do_call req st).2.
Proof. unfold do_call. destruct (backend_call _ _) as [w a]. done. Qed.

Lemma inv_answer rid rc args st : broker_inv st -> broker_inv (answer rid rc args st).
Proof. done. Qed.

Lemma inv_fd_free fd st rc st' :
  vfs_fd_free fd st = Done (rc, st') -> broker_inv st -> broker_inv st'.
Proof.
  unfold vfs_fd_free. destruct (vfs_file_get fd st) as [[p f]|] eqn:Hget.
  - apply vfs_file_get_Some in Hget as [_ Hp].
    destruct (vfs_node_put _ _) as [st1|] eqn:Hput; [|discriminate].
    cbn [mbind result_bind]. intros [= <- <-] Hinv.
    apply (inv_node_put _ _ _ Hput).
    destruct (bool_decide _); unfold broker_inv; cbn.
    + apply inv3_files_delete, Hinv.
    + eapply inv3_files_same; eauto.
  - intros [= <- <-]. done.
Qed.

Lemma inv_fd_assign p fd st rc st' :
  vfs_fd_assign p fd st = Done (rc, st') -> broker_inv st -> broker_inv st'.
Proof.
  unfold vfs_fd_assign. destruct (_ || _).
  - intros [= <- <-]. done.
  - destruct (files st !! p) as [f|] eqn:Hp; [|discriminate].
    unfold node_at. destruct (nodes st !! f_node f) as [n|] eqn:Hn; [|discriminate].
    cbn [mbind result_bind]. intros [= <- <-] Hinv. unfold broker_inv. cbn.
    eapply inv3_files_same; eauto.
    eapply inv3_nodes_same; [exact Hn|reflexivity|simpl; lia|exact Hinv].
Qed.

Lemma inv_fd_alloc st : broker_inv st -> broker_inv (vfs_fd_alloc st).2.
Proof.
  unfold vfs_fd_alloc. destruct (lowest_free _ _ _); [|done].
  intros Hinv. unfold broker_inv. cbn. apply inv3_files_closed; [reflexivity|exact Hinv].
Qed.

End InvOps.

Section InvRequests.
Context {W : Type} `{!Backend W}.
Implicit Types st : vfs_state W.

Lemma inv_open_node_remote n st :
  broker_inv st -> broker_inv (vfs_open_node_remote n st).2.
Proof.
  unfold vfs_open_node_remote. intros Hinv.
  pose proof (inv_do_call (VFS_OUT_OPEN_NODE (fs_handle (n_triplet n))
                (service_id (n_triplet n)) (index (n_triplet n))) st Hinv) as H.
  destruct (do_call _ _) as [a st0]. exact H.
Qed.

Lemma inv_truncate_internal t size st :
  broker_inv st -> broker_inv (vfs_truncate_internal t size st).2.
Proof.
  unfold vfs_truncate_internal. intros Hinv.
  pose proof (inv_do_call (VFS_OUT_TRUNCATE (fs_handle t) (service_id t) (index t)
                (LOWER32 size) (UPPER32 size)) st Hinv) as H.
  destruct (do_call _ _) as [a st0]. exact H.
Qed.

(** One step through the code of an operation that has returned. *)
Ltac op_step :=
  match goal with
  | H : Abort _ = Done _ |- _ => discriminate H
  | H : Done ?a = Done ?b |- _ =>
      apply Done_inj in H;
      first [subst b | subst a | (inversion H; subst; clear H)]
  | H : inl _ = inl _ |- _ => inversion H; subst; clear H
  | H : inr _ = inr _ |- _ => inversion H; subst; clear H
  | H : inl _ = inr _ |- _ => discriminate H
  | H : inr _ = inl _ |- _ => discriminate H
  | H : (if ?c then _ else _) = Done _ |- _ => destruct c eqn:?
  | H : (match ?e with _ => _ end) = Done _ |- _ => destruct e eqn:?
  | H : (mbind _ ?e) = Done _ |- _ => destruct e eqn:?; cbn [mbind result_bind] in H
  end.

(** The invariant carried over a helper that has been run. *)
Ltac op_fwd :=
  match goal with
  | E : do_lookup ?b ?p ?f ?s = (_, ?s0), H : broker_inv ?s |- _ =>
      assert (broker_inv s0)
        by (generalize (inv_do_lookup b p f s H); rewrite E; exact id);
      clear E
  | E : do_link ?b ?p ?c ?s = (_, ?s0), H : broker_inv ?s |- _ =>
      assert (broker_inv s0)
        by (generalize (inv_do_link b p c s H); rewrite E; exact id);
      clear E
  | E : do_call ?r ?s = (_, ?s0), H : broker_inv ?s |- _ =>
      assert (broker_inv s0)
        by (generalize (inv_do_call r s H); rewrite E; exact id);
      clear E
  | E : vfs_node_get ?l ?s = (_, ?s0), H : broker_inv ?s |- _ =>
      assert (broker_inv s0)
        by (generalize (inv_node_get l s H); rewrite E; exact id);
      clear E
  | E : vfs_fd_alloc ?s = (_, ?s0), H : broker_inv ?s |- _ =>
      assert (broker_inv s0)
        by (generalize (inv_fd_alloc s H); rewrite E; exact id);
      clear E
  | E : vfs_open_node_remote ?n ?s = (_, ?s0), H : broker_inv ?s |- _ =>
      assert (broker_inv s0)
        by (generalize (inv_open_node_remote n s H); rewrite E; exact id);
      clear E
  | E : vfs_truncate_internal ?t ?z ?s = (_, ?s0), H : broker_inv ?s |- _ =>
      assert (broker_inv s0)
        by (generalize (inv_truncate_internal t z s H); rewrite E; exact id);
      clear E
  | E : vfs_node_put _ ?s = Done ?s0, H : broker_inv ?s |- _ =>
      pose proof (inv_node_put _ _ _ E H); clear E
  | E : vfs_node_forget _ ?s = Done ?s0, H : broker_inv ?s |- _ =>
      pose proof (inv_node_forget _ _ _ E H); clear E
  | E : vfs_fd_free _ ?s = Done (_, ?s0), H : broker_inv ?s |- _ =>
      pose proof (inv_fd_free _ _ _ _ E H); clear E
  | E : vfs_fd_assign _ _ ?s = Done (_, ?s0), H : broker_inv ?s |- _ =>
      pose proof (inv_fd_assign _ _ _ _ _ E H); clear E
  end.

Ltac op_auto := repeat (first [op_step | op_fwd]); try assumption; try done.

Lemma inv_sync rid fd st st' :
  vfs_sync rid fd st = Done st' -> broker_inv st -> broker_inv st'.
Proof. unfold vfs_sync. intros H Hinv. op_auto. Qed.

Lemma inv_close rid fd st st' :
  vfs_close rid fd st = Done st' -> broker_inv st -> broker_inv st'.
Proof. unfold vfs_close. intros H Hinv. op_auto. Qed.

Lemma inv_fstat rid fd recv callid st st' :
  vfs_fstat rid fd recv callid st = Done st' -> broker_inv st -> broker_inv st'.
Proof. unfold vfs_fstat. intros H Hinv. op_auto. Qed.

Lemma inv_dup rid oldfd newfd st st' :
  vfs_dup rid oldfd newfd st = Done st' -> broker_inv st -> broker_inv st'.
Proof. unfold vfs_dup. intros H Hinv. op_auto. Qed.

Lemma inv_seek rid fd arg2 arg3 whence st st' :
  vfs_seek rid fd arg2 arg3 whence st = Done st' -> broker_inv st -> broker_inv st'.
Proof.
  unfold vfs_seek. intros H Hinv.
  destruct (vfs_file_get fd st) as [[p f]|] eqn:Hget; [|op_auto].
  apply vfs_file_get_Some in Hget as [_ Hp].
  op_auto; unfold broker_inv; cbn; eapply inv3_files_same; eauto.
Qed.

Lemma inv_truncate rid fd arg2 arg3 st st' :
  vfs_truncate rid fd arg2 arg3 st = Done st' -> broker_inv st -> broker_inv st'.
Proof.
  unfold vfs_truncate. intros H Hinv.
  destruct (vfs_file_get fd st) as [[p f]|] eqn:Hget; [|op_auto].
  unfold node_at in H. destruct (nodes st !! f_node f) as [n|] eqn:Hn; [|discriminate].
  cbn [mbind result_bind] in H.
  unfold vfs_truncate_internal, do_call in H. destruct (backend_call _ _) as [w a].
  op_auto. destruct (is_EOK _); [|exact Hinv].
  unfold broker_inv. cbn.
  eapply inv3_nodes_same; [exact Hn|reflexivity| |exact Hinv].
  apply (proj1 Hinv _ _ Hn).
Qed.

Lemma inv_get_mtab rid callid ping script st st' :
  vfs_get_mtab rid callid ping script st = Done st' -> broker_inv st -> broker_inv st'.
Proof.
  unfold vfs_get_mtab. intros H Hinv.
  assert (Hs : forall l sc (s : vfs_state W),
            broker_inv s -> broker_inv (mtab_stream callid l sc s).2).
  { induction l as [|e l IH]; intros sc s Hs; [exact Hs|].
    cbn [mtab_stream].
    destruct sc as [|[] [|[] [|[] [|[] sc]]]]; try exact Hs.
    apply IH. exact Hs. }
  destruct ping; cbn [negb] in H; [|op_auto].
  destruct (mtab_stream _ _ _ _) as [rc s1] eqn:E.
  op_auto. unfold broker_inv. cbn.
  generalize (Hs (mtab_list st) script
                (answer callid EOK [Z.of_nat (mtab_size st)] st) Hinv).
  cbn [mtab_list answer set_log] in E. rewrite E. exact id.
Qed.

Lemma inv_walk rid parentfd flags path st st' :
  vfs_walk rid parentfd flags path st = Done st' -> broker_inv st -> broker_inv st'.
Proof.
  unfold vfs_walk. intros H Hinv.
  op_auto. unfold broker_inv. cbn. apply inv3_files_closed; [reflexivity|assumption].
Qed.

Lemma inv_open2 rid fd flags st st' :
  vfs_open2 rid fd flags st = Done st' -> broker_inv st -> broker_inv st'.
Proof.
  unfold vfs_open2. intros H Hinv.
  destruct (bool_decide (flags = 0)); [op_auto|].
  destruct (vfs_file_get fd st) as [[p f]|] eqn:Hget; [|op_auto].
  apply vfs_file_get_Some in Hget as [_ Hp].
  destruct (cbool (Z.land flags (Z.lnot (f_permissions f)))); [op_auto|].
  cbn [f_open_read f_open_write file_set_open] in H.
  destruct (negb _ && negb _) eqn:Hnone.
  { apply Done_inj in H. subst st'. unfold broker_inv. cbn.
    apply inv3_files_closed; [|exact Hinv].
    cbn. apply andb_true_iff in Hnone as [_ Hw]. apply negb_true_iff, Hw. }
  unfold node_at in H. cbn [nodes set_file set_files f_node file_set_open] in H.
  destruct (nodes st !! f_node f) as [n|] eqn:Hn; [|discriminate].
  cbn [mbind result_bind] in H.
  destruct (bool_decide (n_type n = VFS_NODE_DIRECTORY) && _) eqn:Hdir.
  { apply Done_inj in H. subst st'. unfold broker_inv. cbn.
    rewrite insert_insert_eq. apply inv3_files_closed; [reflexivity|exact Hinv]. }
  unfold vfs_open_node_remote, do_call in H. cbn [world set_file set_files] in H.
  destruct (backend_call _ _) as [w a].
  destruct (negb (is_EOK (a_rc a))); apply Done_inj in H; subst st'; unfold broker_inv; cbn.
  - rewrite insert_insert_eq. apply inv3_files_closed; [reflexivity|exact Hinv].
  - destruct (cbool (Z.land flags (Z.lor MODE_WRITE MODE_APPEND))) eqn:Hw.
    + rewrite andb_true_r in Hdir. apply bool_decide_eq_false in Hdir.
      eapply inv3_files_typed; [|exact Hdir|exact Hinv]. exact Hn.
    + apply inv3_files_closed; [reflexivity|exact Hinv].
Qed.

Lemma inv_rdwr rid fd read st st' :
  vfs_rdwr rid fd read st = Done st' -> broker_inv st -> broker_inv st'.
Proof.
  unfold vfs_rdwr. intros H Hinv.
  destruct (vfs_file_get fd st) as [[p f]|] eqn:Hget; [|op_auto].
  apply vfs_file_get_Some in Hget as [_ Hp].
  destruct (_ || _); [op_auto|].
  unfold node_at in H. destruct (nodes st !! f_node f) as [n|] eqn:Hn; [|discriminate].
  cbn [mbind result_bind] in H.
  destruct (fs_handle_to_info _ _) as [info|]; [|discriminate].
  destruct (bool_decide (n_type n = VFS_NODE_DIRECTORY) && negb read); [discriminate|].
  set (f1 := if negb read && f_append f then file_set_pos (n_size n) f else f) in *.
  assert (Hf1 : f_node f1 = f_node f /\ f_open_write f1 = f_open_write f).
  { subst f1. destruct (negb read && f_append f); done. }
  destruct Hf1 as [Hnode1 Hopen1].
  unfold do_call in H. cbn [world set_file set_files] in H.
  destruct (backend_call _ _) as [w a].
  apply Done_inj in H. subst st'.
  assert (Hinv1 : inv3 (nodes st) (next_node st) (<[p := f1]> (files st))).
  { eapply inv3_files_same; eauto. }
  assert (Hp1 : (<[p := f1]> (files st)) !! p = Some f1) by apply lookup_insert_eq.
  destruct (negb _ && is_EOK (a_rc a)); destruct (is_EOK (a_rc a));
    unfold broker_inv; cbn; rewrite ?Hnode1;
    repeat first
      [ exact Hinv1
      | eapply inv3_files_same; [eapply lookup_insert_eq|reflexivity|reflexivity|]
      | eapply inv3_nodes_same; [exact Hn|reflexivity|apply (proj1 Hinv _ _ Hn)|] ].
Qed.

Lemma inv_unlink2 rid parentfd expectfd wflag path pad_equal st st' :
  vfs_unlink2 rid parentfd expectfd wflag path pad_equal st = Done st' ->
  broker_inv st -> broker_inv st'.
Proof. unfold vfs_unlink2. intros H Hinv. op_auto. Qed.

Lemma inv_rename_steps base old new st rc st' :
  vfs_rename_steps base old new st = Done (rc, st') -> broker_inv st -> broker_inv st'.
Proof.
  unfold vfs_rename_steps. intros H Hinv.
  assert (Hrel : forall b p c (s : vfs_state W) (g : bool),
            broker_inv s -> broker_inv (if g then do_relink b p c s else s)).
  { intros b p c s [] Hs; [apply inv_do_relink, Hs|exact Hs]. }
  op_auto; repeat first [assumption | apply Hrel | apply inv_do_relink].
Qed.

Lemma inv_rename_internal base old new st rc st' :
  vfs_rename_internal base old new st = Done (rc, st') -> broker_inv st -> broker_inv st'.
Proof.
  unfold vfs_rename_internal. intros H Hinv.
  op_auto; eapply inv_rename_steps; eassumption.
Qed.

Lemma inv_rename canonify rid basefd old new st st' :
  vfs_rename canonify rid basefd old new st = Done st' -> broker_inv st -> broker_inv st'.
Proof.
  unfold vfs_rename. intros H Hinv.
  op_auto; eapply inv_answer, inv_rename_internal; eassumption.
Qed.

Lemma inv_mount_internal rid service fs mp opts st rc st' :
  vfs_mount_internal rid service fs mp opts st = Done (rc, st') ->
  broker_inv st -> broker_inv st'.
Proof. unfold vfs_mount_internal. intros H Hinv. op_auto. Qed.

Lemma inv_mount rid service flags instance mp opts fs_name ping callid st st' :
  vfs_mount rid service flags instance mp opts fs_name ping callid st = Done st' ->
  broker_inv st -> broker_inv st'.
Proof.
  unfold vfs_mount. intros H Hinv.
  op_auto;
    match goal with
    | E : vfs_mount_internal _ _ _ _ _ _ = Done (_, ?s) |- _ =>
        pose proof (inv_mount_internal _ _ _ _ _ _ _ _ E Hinv)
    end; done.
Qed.

Lemma inv_unmount rid mp st st' :
  vfs_unmount rid mp st = Done st' -> broker_inv st -> broker_inv st'.
Proof.
  unfold vfs_unmount. intros H Hinv. op_auto.
  match goal with
  | E : vfs_node_forget _ (set_root None ?s) = Done ?s0, Hs : broker_inv ?s |- _ =>
      exact (inv_node_forget _ _ _ E Hs)
  end.
Qed.

End InvRequests.

(** The invariant holds in every state the broker reaches. *)
Lemma reachable_inv {W : Type} `{!Backend W} canonify (st : vfs_state W) :
  reachable canonify st -> broker_inv st.
Proof.
  induction 1 as [w reg|st rid req st' _ IH Hstep|st w reg _ IH].
  - split; intros ? ? Hl; cbn in Hl; rewrite lookup_empty in Hl; discriminate.
  - destruct req; cbn [dispatch] in Hstep.
    + eapply inv_mount; eassumption.
    + eapply inv_unmount; eassumption.
    + eapply inv_walk; eassumption.
    + eapply inv_open2; eassumption.
    + eapply inv_rdwr; eassumption.
    + eapply inv_rdwr; eassumption.
    + eapply inv_seek; eassumption.
    + eapply inv_truncate; eassumption.
    + eapply inv_fstat; eassumption.
    + eapply inv_close; eassumption.
    + eapply inv_sync; eassumption.
    + eapply inv_unlink2; eassumption.
    + eapply inv_rename; eassumption.
    + eapply inv_dup; eassumption.
    + eapply inv_get_mtab; eassumption.
  - exact IH.
Qed.

(** In every state the broker reaches the cached nodes are referenced and
    lie below the next free address. *)
Lemma reachable_nodes_wf {W : Type} `{!Backend W} canonify (st : vfs_state W) :
  reachable canonify st -> nodes_wf st.
Proof. intros Hreach. apply reachable_inv in Hreach as [Hn _]. exact Hn. Qed.

Section AssertRead.
Context {W : Type} `{!Backend W}.

(** C9: in every state the broker reaches, no descriptor that is open for
    writing has a cached directory as its node; so [vfs_rdwr] never stops at
    [assert(read)], and a write through a descriptor of a directory is
    answered [EINVAL] by the test of [open_write], with nothing else
    changed. *)
Theorem rdwr_assert_read_valid canonify (st : vfs_state W) :
  reachable canonify st ->
  (forall fp f n, files st !! fp = Some f -> nodes st !! f_node f = Some n ->
     n_type n = VFS_NODE_DIRECTORY -> f_open_write f = false)
  /\ (forall rid fd read, vfs_rdwr rid fd read st ≠ Abort (ASSERT_FAILED "read"))
  /\ (forall rid fd p f n,
       vfs_file_get fd st = Some (p, f) -> nodes st !! f_node f = Some n ->
       n_type n = VFS_NODE_DIRECTORY ->
       vfs_rdwr rid fd false st = Done (answer rid EINVAL [] st)).
Proof.
  intros Hreach. apply reachable_inv in Hreach as [_ Hf].
  assert (Hdir : forall fp f n, files st !! fp = Some f -> nodes st !! f_node f = Some n ->
            n_type n = VFS_NODE_DIRECTORY -> f_open_write f = false).
  { intros fp f n Hfp Hn Hty. destruct (f_open_write f) eqn:Hw; [|reflexivity].
    destruct (Hf fp f Hfp Hw) as [_ Hno]. destruct (Hno n Hn Hty). }
  split; [exact Hdir|]. split.
  - intros rid fd read. unfold vfs_rdwr.
    destruct (vfs_file_get fd st) as [[p f]|] eqn:Hget; [|discriminate].
    apply vfs_file_get_Some in Hget as [_ Hp].
    destruct (_ || _) eqn:Hchk; [discriminate|].
    unfold node_at. destruct (nodes st !! f_node f) as [n|] eqn:Hn; [|discriminate].
    cbn [mbind result_bind].
    destruct (fs_handle_to_info _ _); [|discriminate].
    destruct (bool_decide (n_type n = VFS_NODE_DIRECTORY)) eqn:Hd; cbn [andb].
    + apply bool_decide_eq_true in Hd.
      rewrite (Hdir p f n Hp Hn Hd) in Hchk.
      destruct read; [|discriminate Hchk]. cbn [negb].
      unfold do_call. destruct (backend_call _ _). discriminate.
    + unfold do_call. destruct (backend_call _ _). discriminate.
  - intros rid fd p f n Hget Hn Hty. unfold vfs_rdwr. rewrite Hget.
    apply vfs_file_get_Some in Hget as [_ Hp].
    rewrite (Hdir p f n Hp Hn Hty). reflexivity.
Qed.

End AssertRead.


(** A graph in which every entry leads to a node of higher rank has no
    cycles. *)
Lemma ns_acyclic_ranked (d : gmap (vfs_triplet * string) vfs_triplet)
    (rank : vfs_triplet -> nat) :
  map_Forall (fun k t => (rank k.1 < rank t)%nat) d -> ns_acyclic d.
Proof.
  intros Hrank.
  assert (Hup : forall names t t', ns_walk d t names = Some t' ->
            (rank t ≤ rank t')%nat /\ (names ≠ [] -> (rank t < rank t')%nat)).
  { induction names as [|c cs IH]; intros t t'; simpl.
    - intros [= ->]. split; [lia|done].
    - destruct (d !! (t, c)) as [u|] eqn:Hu; [|discriminate].
      intros Hw. apply IH in Hw as [Hle _]. apply Hrank in Hu. simpl in Hu.
      split; [lia|]. intros _. lia. }
  intros t names Hw. destruct names as [|c cs]; [reflexivity|].
  apply Hup in Hw as [_ Hlt]. specialize (Hlt ltac:(discriminate)). lia.
Qed.

Lemma tree_acyclic : ns_acyclic tree.
Proof.
  apply (ns_acyclic_ranked tree (fun t => Z.to_nat (index t))).
  unfold tree. repeat (apply map_Forall_insert_2; [simpl; lia|]).
  apply map_Forall_empty.
Qed.

Lemma session_reachable f reqs st :
  session f reqs = Done st -> reachable canon st.
Proof.
  unfold session.
  assert (Hgen : forall r, (forall s, r = Done s -> reachable canon s) ->
            foldl (fun r req => run 1 req r) r reqs = Done st -> reachable canon st).
  { induction reqs as [|req reqs IH]; intros r Hr; simpl.
    - apply Hr.
    - apply IH. intros s Hs. unfold run in Hs.
      destruct r as [s0|]; [|discriminate]. cbn [mbind result_bind] in Hs.
      eapply reach_request; [apply Hr; reflexivity|exact Hs]. }
  apply Hgen. intros s [= <-]. apply reach_init.
Qed.

(** ** The statements at work in the scenario *)

Lemma walk_flags_validated_witness :
  (walk_flags_valid 3 = false
   /\ forall (st : vfs_state fs_world) rid parentfd path,
        vfs_walk rid parentfd 3 path st = Done (answer rid EINVAL [] st)
        /\ world (answer rid EINVAL [] st) = world st
        /\ log (answer rid EINVAL [] st) = (log st ++ [EvAnswer rid EINVAL []])%list)
  /\ walk_flags_valid 5 = true.
Proof.
  split.
  - apply (proj1 (walk_flags_validated 3)).
    right. left. split; unfold flag_set; vm_compute; discriminate.
  - apply (proj2 (walk_flags_validated (W := fs_world) 5)).
    intros Hr. apply walk_flags_valid_false in Hr. vm_compute in Hr. discriminate.
Defined.

Lemma seek_set_then_cur_witness :
  exists st1 st2 lo hi,
    vfs_seek 1 0 5 0 SEEK_SET opened_file = Done st1
    /\ log st1 = (log opened_file ++ [EvAnswer 1 EOK [to_off64 (MERGE_LOUP32 5 0)]])%list
    /\ vfs_seek 2 0 0 0 SEEK_CUR st1 = Done st2
    /\ log st2 = (log st1 ++ [EvAnswer 2 EOK [lo; hi]])%list
    /\ MERGE_LOUP32 lo hi = Z.min (to_off64 (MERGE_LOUP32 5 0)) OFF64_MAX.
Proof.
  apply (seek_set_then_cur opened_file 1 2 0 5 0 0%nat
           (File 1 0 true false false 7 1)).
  - reflexivity.
  - vm_compute. discriminate.
Defined.


Lemma vfs_open2_checked_witness :
  exists st',
    vfs_open2 2 0 MODE_WRITE walked_dir = Done st'
    /\ last (log st') = Some (EvAnswer 2 EINVAL [])
    /\ (f_open_write <$> (snd <$> vfs_file_get 0 st')) = Some false.
Proof.
  destruct (vfs_open2_checked walked_dir 2 0 MODE_WRITE 0%nat
              (File 1 0 false false false 7 1) (Node DIR_D VFS_NODE_DIRECTORY 0 1)
              eq_refl eq_refl eq_refl eq_refl)
    as (st' & rc & f' & Hrun & Hlast & Hget & _ & _ & Hdir & Hfail & _).
  assert (Hrc : rc = EINVAL) by (apply Hdir; reflexivity).
  exists st'. split; [exact Hrun|]. split; [rewrite Hlast, Hrc; reflexivity|].
  rewrite Hget. cbn. f_equal. apply Hfail. rewrite Hrc. discriminate.
Defined.

(** An [open] that fails has nevertheless written one of the mode bits: asked
    to open a walked directory for appending, it answers [EINVAL] and leaves
    the append flag of the descriptor set.  And a mode that has neither the
    read nor the write bit is not always refused: [MODE_APPEND] alone opens a
    file for writing. *)
Lemma open2_failure_latches_append :
  (exists st',
     vfs_open2 2 0 MODE_APPEND walked_dir = Done st'
     /\ last (log st') = Some (EvAnswer 2 EINVAL [])
     /\ (snd <$> vfs_file_get 0 walked_dir) = Some (File 1 0 false false false 7 1)
     /\ (snd <$> vfs_file_get 0 st') = Some (File 1 0 false false true 7 1))
  /\ (exists st',
        Z.land MODE_APPEND MODE_READ = 0 /\ Z.land MODE_APPEND MODE_WRITE = 0
        /\ vfs_open2 3 1 MODE_APPEND opened_file = Done st'
        /\ last (log st') = Some (EvAnswer 3 EOK [])
        /\ (snd <$> vfs_file_get 1 st') = Some (File 2 0 false true true 7 1)).
Proof.
  split.
  - eexists. split; [vm_compute; reflexivity|]. split; [reflexivity|].
    split; reflexivity.
  - eexists. split; [reflexivity|]. split; [reflexivity|].
    split; [vm_compute; reflexivity|]. split; reflexivity.
Qed.

Lemma vfs_unmount_busy_witness :
  exists st' evs,
    vfs_unmount 9 (EOK, "/") walked_root = Done st'
    /\ log st' = (log walked_root ++ evs ++ [EvAnswer 9 EBUSY []])%list
    /\ forallb (fun e => negb (is_unmount_request e)) evs = true
    /\ mtab_list st' = mtab_list walked_root /\ mtab_size st' = mtab_size walked_root
    /\ root st' = root walked_root
    /\ nodes st' = nodes walked_root.
Proof.
  apply (vfs_unmount_busy walked_root 9 "/" 0%nat (Node ROOT VFS_NODE_DIRECTORY 0 2)
           (world walked_root) (LookupRes ROOT 0 VFS_NODE_DIRECTORY)).
  - apply (reachable_nodes_wf canon).
    apply (session_reachable [] [mount_root; VFS_IN_WALK (-1) 0 (EOK, "/")]).
    vm_compute. reflexivity.
  - reflexivity.
  - reflexivity.
  - vm_compute. reflexivity.
  - vm_compute. repeat constructor.
Defined.


Lemma rdwr_assert_read_valid_witness :
  vfs_rdwr 2 0 false walked_dir = Done (answer 2 EINVAL [] walked_dir).
Proof.
  assert (Hreach : reachable canon walked_dir).
  { apply (session_reachable [] [mount_root; VFS_IN_WALK (-1) 0 (EOK, "/d")]).
    vm_compute. reflexivity. }
  destruct (rdwr_assert_read_valid canon walked_dir Hreach) as (_ & _ & Hwrite).
  apply (Hwrite 2 0 0%nat (File 1 0 false false false 7 1)
           (Node DIR_D VFS_NODE_DIRECTORY 0 1)); reflexivity.
Defined.

Lemma rename_atomicity_witness :
  (exists lr,
     ns_resolve (world (mounted [])) ROOT "/a" = (EOK, lr)
     /\ ns_resolve (world renamed) ROOT "/a" = (ENOENT, no_result)
     /\ ns_resolve (world renamed) ROOT "/b" = (EOK, lr))
  /\ (dentries (world rolled_back) = dentries (world (mounted [false; false; true]))
      /\ attrs (world rolled_back) = attrs (world (mounted [false; false; true]))
      /\ forall base' p,
           ns_resolve (world rolled_back) base' p
           = ns_resolve (world (mounted [false; false; true])) base' p).
Proof.
  split.
  - apply (proj1 (rename_atomicity (mounted []) renamed ROOT "/a" "/b" EOK
                    ltac:(vm_compute; reflexivity))).
    + reflexivity.
    + exact tree_acyclic.
  - apply (proj2 (rename_atomicity (mounted [false; false; true]) rolled_back ROOT
                    "/a" "/b" EIO ltac:(vm_compute; reflexivity))).
    + discriminate.
    + vm_compute. reflexivity.
Defined.

(** A rename that fails after both unlinks and whose compensating links fail
    as well: the call returns the error of the link, and neither the old nor
    the new path resolves any more, though both did before the call. *)
Lemma rename_not_restored :
  vfs_rename_internal ROOT "/a" "/b" (mounted [false; false; true; true; true])
  = Done (EIO, half_done)
  /\ drop (List.length (log (mounted [false; false; true; true; true]))) (log half_done)
     = [EvLookup ROOT "/b" 640 EOK; EvLookup ROOT "/a" 640 EOK;
        EvLink ROOT "/b" FILE_A EIO;
        EvRelink ROOT "/a" FILE_A EIO; EvRelink ROOT "/b" FILE_B EIO]
  /\ ns_resolve (world (mounted [false; false; true; true; true])) ROOT "/a"
     = (EOK, LookupRes FILE_A 3 VFS_NODE_FILE)
  /\ ns_resolve (world (mounted [false; false; true; true; true])) ROOT "/b"
     = (EOK, LookupRes FILE_B 10 VFS_NODE_FILE)
  /\ ns_resolve (world half_done) ROOT "/a" = (ENOENT, no_result)
  /\ ns_resolve (world half_done) ROOT "/b" = (ENOENT, no_result).
Proof. repeat split; vm_compute; reflexivity. Qed.

(** C2, what the code does: for old = "/a" and new = "/a/b" the index that
    [shared_path] returns is 0, where both paths have a slash, so the prefix
    test does not fire; the rename goes on to unlink and link.  From the root
    of the scenario it asks the resolver four times and returns [ENOENT]; for
    "/d" and "/d/e", which both exist, it unlinks the file and the directory
    before the link fails and both are linked back. *)
Theorem rename_prefix_not_rejected :
  shared_path "/a" "/a/b" = Some 0%nat
  /\ (exists st',
        vfs_rename_internal ROOT "/a" "/a/b" (mounted []) = Done (ENOENT, st')
        /\ log st' =
           (log (mounted [])
              ++ [EvLookup ROOT "/a/b" 640 ENOENT; EvLookup ROOT "/a" 640 EOK;
                  EvLink ROOT "/a/b" FILE_A ENOENT; EvRelink ROOT "/a" FILE_A EOK])%list)
  /\ (exists st',
        vfs_rename_internal ROOT "/d" "/d/e" (mounted []) = Done (ENOENT, st')
        /\ log st' =
           (log (mounted [])
              ++ [EvLookup ROOT "/d/e" 640 EOK; EvLookup ROOT "/d" 640 EOK;
                  EvLink ROOT "/d/e" DIR_D ENOENT;
                  EvRelink ROOT "/d" DIR_D EOK; EvRelink ROOT "/d/e" FILE_E EOK])%list).
Proof.
  split; [reflexivity|].
  split; eexists; (split; [vm_compute; reflexivity|reflexivity]).
Qed.
